(** * vscode-cosmosdb: editor manager and Mongo collection tree item

    A shallow embedding of [src/CosmosEditorManager.ts] and
    [src/mongo/tree/MongoCollectionTreeItem.ts], and the properties of the
    specification that concern them.

    Asynchronous functions are embedded by their settled outcome: the
    extension host runs them on one thread, and a call is followed from
    its first statement to the settling of its promise, every [await]
    taken in program order. *)

From Stdlib Require Import String List Arith NArith Bool Lia PeanoNat
  DecimalString.
Import ListNotations.

Set Implicit Arguments.

(** ** Paging through a collection

    [MongoCollectionTreeItem.hasMoreChildren] and
    [MongoCollectionTreeItem.loadMoreChildren]. *)
Module Paging.

Section WithCollection.

(** [IMongoDocument] and the filter object given to [find]. *)
Variable IMongoDocument : Type.
Variable Query : Type.

(** [DefaultBatchSize] is imported from [constants], which is not among
    the sources: it is a parameter of the development. *)
Variable DefaultBatchSize : nat.

(** A driver [Cursor] is a forward-only iterator: its state is the list
    of the documents it has not yet delivered, in its native order.
    [hasNext] and [next] are the two operations the tree item uses; the
    cursor is one that answers, a transport error ends the call and is
    not part of the model. *)
Definition Cursor := list IMongoDocument.

Definition hasNext (c : Cursor) : bool :=
  match c with
  | [] => false
  | _ :: _ => true
  end.

Definition next (c : Cursor) : option (IMongoDocument * Cursor) :=
  match c with
  | [] => None
  | d :: c' => Some (d, c')
  end.

(** The driver [Collection], as far as paging uses it: [find] answers
    with the documents a filter selects, in order.  The network batch
    size given to the cursor by [.batchSize(DefaultBatchSize)] does not
    change what the cursor delivers. *)
Record Collection := { find : option Query -> list IMongoDocument }.

Record MongoDocumentTreeItem := {
  document : IMongoDocument;
  _collection : Collection
}.

(** The mutable fields of the tree item.  [_batchSize] is a JavaScript
    number that is only ever doubled and compared with a counter; it is
    a natural number here (a double holds [DefaultBatchSize * 2^k]
    exactly until it becomes [Infinity], which compares like any bound
    larger than the collection). *)
Record MongoCollectionTreeItem := {
  collection : Collection;
  _query : option Query;
  _cursor : option Cursor;
  _hasMoreChildren : bool;
  _batchSize : nat
}.

(** The state the constructor leaves. *)
Definition newTreeItem (coll : Collection) (query : option Query)
  : MongoCollectionTreeItem :=
  {| collection := coll;
     _query := query;
     _cursor := None;
     _hasMoreChildren := true;
     _batchSize := DefaultBatchSize |}.

Definition hasMoreChildren (this : MongoCollectionTreeItem) : bool :=
  _hasMoreChildren this.

(** The [while (count < this._batchSize)] loop.  [todo] is
    [_batchSize - count], the number of iterations the loop condition
    still allows; [hasMore] is the current [_hasMoreChildren] and
    [documents] the array built so far.  [next] is only called on a
    cursor whose [hasNext] answered true, where it has a document. *)
Fixpoint fetch_loop (todo : nat) (cur : Cursor) (hasMore : bool)
         (documents : list IMongoDocument)
  : list IMongoDocument * Cursor * bool :=
  match todo with
  | O => (documents, cur, hasMore)
  | S todo' =>
      if hasNext cur then
        match next cur with
        | Some (d, cur') => fetch_loop todo' cur' true (documents ++ [d])
        | None => (documents, cur, true)
        end
      else (documents, cur, false)
  end.

Definition loadMoreChildren (clearCache : bool)
           (this : MongoCollectionTreeItem)
  : list MongoDocumentTreeItem * MongoCollectionTreeItem :=
  let '(cur, batchSize) :=
    match clearCache, _cursor this with
    | false, Some c => (c, _batchSize this)
    | _, _ => (find (collection this) (_query this), DefaultBatchSize)
    end in
  let '(documents, cur', hasMore) :=
    fetch_loop batchSize cur (_hasMoreChildren this) [] in
  (map (fun d => {| document := d; _collection := collection this |})
       documents,
   {| collection := collection this;
      _query := _query this;
      _cursor := Some cur';
      _hasMoreChildren := hasMore;
      _batchSize := batchSize * 2 |}).

(** [k] successive calls [loadMoreChildren(node, false)]: the batches
    they return, in call order, and the state they leave. *)
Fixpoint fetchMany (k : nat) (this : MongoCollectionTreeItem)
  : list (list MongoDocumentTreeItem) * MongoCollectionTreeItem :=
  match k with
  | O => ([], this)
  | S k' =>
      let '(batch, this') := loadMoreChildren false this in
      let '(batches, this'') := fetchMany k' this' in
      (batch :: batches, this'')
  end.

Definition documentsOf (batch : list MongoDocumentTreeItem)
  : list IMongoDocument := map document batch.

(** A tree item whose cursor is open. *)
Definition opened (coll : Collection) query (cur : Cursor) hasMore batchSize
  : MongoCollectionTreeItem :=
  {| collection := coll; _query := query; _cursor := Some cur;
     _hasMoreChildren := hasMore; _batchSize := batchSize |}.

Definition wrap (coll : Collection) (ds : list IMongoDocument)
  : list MongoDocumentTreeItem :=
  map (fun d => {| document := d; _collection := coll |}) ds.

(** The number of documents [k] calls ask for in total, when the first
    asks for [b] and each call asks for twice what the one before it
    did. *)
Definition asked (b k : nat) : nat := b * (2 ^ k - 1).

(** The exhaustion property in the specification's words: once at
    least one batch was fetched, [hasMoreChildren] is false exactly when
    the batches fetched so far hold all the documents of the
    collection, the last one included. *)
Definition hasMore_false_exactly_after_last_document
           (coll : Collection) (query : option Query) : Prop :=
  forall k, 1 <= k ->
    let run := fetchMany k (newTreeItem coll query) in
    hasMoreChildren (snd run) = false <->
    length (concat (fst run)) = length (find coll query).

(** Successive calls of [loadMoreChildren], one for each [clearCache]
    flag of the list: the batches they return and the state they leave. *)
Fixpoint loadMany (flags : list bool) (this : MongoCollectionTreeItem)
  : list (list MongoDocumentTreeItem) * MongoCollectionTreeItem :=
  match flags with
  | [] => ([], this)
  | clearCache :: flags' =>
      let '(batch, this') := loadMoreChildren clearCache this in
      let '(batches, this'') := loadMany flags' this' in
      (batch :: batches, this'')
  end.

(** The number of calls since the cursor was last opened, that call
    included, counted along a list of [clearCache] flags. *)
Definition sinceReset (flags : list bool) : nat :=
  fold_left (fun n (clearCache : bool) => if clearCache then 1 else S n)
            flags 0.

(** [_batchSize] is a JavaScript number, a double: [b * 2^k] is held
    exactly as long as it is below [2^1024], and the doubling that
    reaches [2^1024] gives [Infinity], where the natural number of the
    model goes on doubling.  [isFinite b k] tells whether [b * 2^k] is
    still a finite number. *)
Definition isFinite (b k : nat) : bool :=
  (N.of_nat b * 2 ^ N.of_nat k <? 2 ^ 1024)%N.

(** The documents a call works on: those of a new cursor when it opens
    one, those left in the cursor otherwise. *)
Definition pending (clearCache : bool) (this : MongoCollectionTreeItem)
  : list IMongoDocument :=
  match clearCache, _cursor this with
  | false, Some c => c
  | _, _ => find (collection this) (_query this)
  end.

(** The batch size a call fetches with. *)
Definition batchSizeUsed (clearCache : bool) (this : MongoCollectionTreeItem)
  : nat :=
  match clearCache, _cursor this with
  | false, Some _ => _batchSize this
  | _, _ => DefaultBatchSize
  end.


(** What every call establishes, when the default batch size is not
    zero: the batch size stays positive, and the flag is only false on a
    cursor that has nothing left. *)
Definition settled (this : MongoCollectionTreeItem) : Prop :=
  0 < _batchSize this /\
  (_hasMoreChildren this = false -> _cursor this = Some []).

End WithCollection.

End Paging.

(** ** Outcomes of JavaScript code *)
Module Js.

(** What a synchronous piece of code does: it returns, or it throws. *)
Inductive Completion (E A : Type) : Type :=
| Return (a : A)
| Throw (e : E).

(** What a promise (a [Thenable]) settles to. *)
Inductive Promise (E A : Type) : Type :=
| Fulfilled (a : A)
| Rejected (e : E).

Arguments Return {E A} a.
Arguments Throw {E A} e.
Arguments Fulfilled {E A} a.
Arguments Rejected {E A} e.

Definition bind {E A B} (c : Completion E A) (k : A -> Completion E B)
  : Completion E B :=
  match c with
  | Return a => k a
  | Throw e => Throw e
  end.

(** [try { c } catch (error) { h error }] *)
Definition try_catch {E A} (c : Completion E A) (h : E -> Completion E A)
  : Completion E A :=
  match c with
  | Return a => Return a
  | Throw e => h e
  end.

(** [Array.prototype.map] with a callback that may throw: the first
    exception ends the traversal. *)
Fixpoint array_map {E A B} (f : A -> Completion E B) (l : list A)
  : Completion E (list B) :=
  match l with
  | [] => Return []
  | x :: l' =>
      bind (f x) (fun y => bind (array_map f l') (fun ys => Return (y :: ys)))
  end.

(** The promise of an [async] function whose body calls [c] and awaits
    its promise: an exception thrown by the call rejects the promise. *)
Definition await_call {E A} (c : Completion E (Promise E A)) : Promise E A :=
  match c with
  | Return p => p
  | Throw e => Rejected e
  end.

(** [p.then(f)] for a callback that does not throw. *)
Definition then_ {E A B} (p : Promise E A) (f : A -> B) : Promise E B :=
  match p with
  | Fulfilled a => Fulfilled (f a)
  | Rejected e => Rejected e
  end.

(** Decimal notation of a number, as string interpolation and string
    concatenation print it. *)
Definition decimal (n : nat) : string :=
  NilEmpty.string_of_uint (Nat.to_uint n).

(** The one-character string holding a double quote. *)
Definition quote : string := String (Ascii.ascii_of_nat 34) EmptyString.

End Js.

(** ** Commands of a collection

    [MongoCollectionTreeItem.update], [MongoCollectionTreeItem.executeCommand]
    and the helpers [reportProgress] and [parseJSContent]. *)
Module Commands.
Import Js.

(** A thrown value is an error object of the driver, or a bare message:
    [parseJSContent] throws [error.message]. *)
Inductive Thrown (DriverError : Type) : Type :=
| ThrownMessage (message : string)
| ThrownError (e : DriverError).

Arguments ThrownMessage {DriverError} message.
Arguments ThrownError {DriverError} e.

(** [vm.runInNewContext(code, sandbox)] for the code [key=content]: the
    value left in [sandbox[key]], or the [message] of the error raised. *)
Inductive VmOutcome (Json : Type) : Type :=
| Evaluated (value : Json)
| Raised (message : string).

Arguments Evaluated {Json} value.
Arguments Raised {Json} message.

(** What the tree item takes from the JavaScript runtime, from
    [underscore] and from the [mongodb] driver. *)
Class Runtime := {
  (** values that are passed around unexamined: parsed command arguments,
      documents without their [_id], results of the driver *)
  Json : Type;
  (** the error objects the driver throws or rejects with *)
  DriverError : Type;
  (** [JSON.stringify(result, null, '\t')] and [JSON.stringify(count)] *)
  stringify : Json -> string;
  JSON_stringify : Json -> string;
  (** the object [{ f1, ..., fn }] built from the destructured fields of a
      driver result *)
  pick : list string -> Json -> Json;
  runInNewContext : string -> VmOutcome Json;
  (** [IMongoDocument]: the [_id] field and the rest, [_.omit(document,
      '_id')]; [new ObjectID(id)] throws on an ill-formed identifier *)
  IMongoDocument : Type;
  RawId : Type;
  ObjectID_t : Type;
  _id : IMongoDocument -> RawId;
  omit_id : IMongoDocument -> Json;
  ObjectID : RawId -> Completion (Thrown DriverError) ObjectID_t
}.

Section WithDriver.

Local Open Scope string_scope.

Context `{Runtime}.

Definition Exn := Thrown DriverError.

Record UpdateOne := {
  filter_id : ObjectID_t;
  update_ : Json;
  upsert : bool
}.

Record BulkWriteOpResultObject := {
  modifiedCount : nat;
  insertedCount : nat
}.

(** A call into the driver throws, or returns a promise that is
    fulfilled or rejected. *)
Definition DriverCall (A : Type) := Completion Exn (Promise Exn A).

(** The driver [Collection]: each operation is given by what it answers
    to each argument. *)
Record Collection := {
  collectionName : string;
  coll_drop : DriverCall unit;
  coll_findOne : option Json -> DriverCall Json;
  coll_insert : option Json -> DriverCall Json;
  coll_insertOne : option Json -> DriverCall Json;
  coll_insertMany : option Json -> DriverCall Json;
  coll_remove : option Json -> DriverCall Json;
  coll_deleteOne : option Json -> DriverCall Json;
  coll_deleteMany : option Json -> DriverCall Json;
  coll_count : option Json -> DriverCall Json;
  coll_bulkWrite : list UpdateOne -> DriverCall BulkWriteOpResultObject
}.

Variable this : Collection.

(** *** [update] *)

Definition updateOperation (document : IMongoDocument)
  : Completion Exn UpdateOne :=
  bind (ObjectID (_id document)) (fun oid =>
  Return {| filter_id := oid; update_ := omit_id document; upsert := false |}).

(** The lines of the output channel are threaded through. *)
Definition update (documents : list IMongoDocument) (output : list string)
  : Promise Exn (list IMongoDocument) * list string :=
  match array_map updateOperation documents with
  | Throw e => (Rejected e, output)
  | Return operations =>
      match await_call (coll_bulkWrite this operations) with
      | Rejected e => (Rejected e, output)
      | Fulfilled result =>
          (Fulfilled documents,
           (output ++
            [("Successfully updated " ++ decimal (modifiedCount result)
              ++ " document(s), inserted "
              ++ decimal (insertedCount result)
              ++ " document(s)")%string])%list)
      end
  end.

(** *** [executeCommand] *)

(** [reportProgress(promise, title)]: [vscode.window.withProgress] hands
    back the promise of its task. *)
Definition reportProgress {A} (promise : Promise Exn A) (title : string)
  : Promise Exn A := promise.

(** [random] stands for [Math.floor(Math.random() * 1000000)]. *)
Definition parseJSContent (random : nat) (content : string)
  : Completion Exn Json :=
  let key := "parse" ++ decimal random in
  match runInNewContext (key ++ "=" ++ content) with
  | Evaluated value => Return value
  | Raised message => Throw (ThrownMessage message)
  end.

(** [args ? parseJSContent(args) : undefined]: a missing argument and
    the empty string are both falsy. *)
Definition parsedArgs (random : nat) (args : option string)
  : Completion Exn (option Json) :=
  match args with
  | None => Return None
  | Some a =>
      if a =? EmptyString then Return None
      else bind (parseJSContent random a) (fun v => Return (Some v))
  end.

Definition drop : Promise Exn string :=
  then_ (await_call (coll_drop this))
        (fun _ => "Dropped collection '" ++ collectionName this ++ "'.").

Definition findOne (args : option Json) : Promise Exn string :=
  then_ (await_call (coll_findOne this args)) stringify.

Definition insert (document : option Json)
  : Completion Exn (Promise Exn string) :=
  bind (coll_insert this document) (fun p =>
  Return (then_ p (fun r =>
    stringify (pick ["insertedCount"; "insertedId"; "result"] r)))).

Definition insertOne (document : option Json)
  : Completion Exn (Promise Exn string) :=
  bind (coll_insertOne this document) (fun p =>
  Return (then_ p (fun r =>
    stringify (pick ["insertedCount"; "insertedId"; "result"] r)))).

Definition insertMany (documents : option Json)
  : Completion Exn (Promise Exn string) :=
  bind (coll_insertMany this documents) (fun p =>
  Return (then_ p (fun r =>
    stringify (pick ["insertedCount"; "insertedIds"; "result"] r)))).

Definition remove (args : option Json)
  : Completion Exn (Promise Exn string) :=
  bind (coll_remove this args) (fun p =>
  Return (then_ p (fun r => stringify (pick ["ops"; "result"] r)))).

Definition deleteOne (args : option Json)
  : Completion Exn (Promise Exn string) :=
  bind (coll_deleteOne this args) (fun p =>
  Return (then_ p (fun r => stringify (pick ["deletedCount"; "result"] r)))).

Definition deleteMany (args : option Json)
  : Completion Exn (Promise Exn string) :=
  bind (coll_deleteMany this args) (fun p =>
  Return (then_ p (fun r => stringify (pick ["deletedCount"; "result"] r)))).

Definition count (args : option Json) : Promise Exn string :=
  then_ (await_call (coll_count this args)) JSON_stringify.

(** What the promise handed back by [executeCommand] is fulfilled with:
    the text of a result, or, from the [catch] clause, the value that
    was thrown. *)
Inductive Answer : Type :=
| ResultText (text : string)
| Caught (error : Exn).

Definition answered (p : Promise Exn string) : Promise Exn Answer :=
  then_ p ResultText.

(** The names [executeCommand] dispatches on. *)
Definition recognized (name : string) : bool :=
  existsb (String.eqb name)
          ["drop"; "insertMany"; "insert"; "insertOne"; "deleteOne";
           "deleteMany"; "remove"; "count"; "findOne"].

(** The body of the [try] block; [None] is the [null] returned for a
    name that is not a command. *)
Definition dispatch (random : nat) (name : string) (args : option string)
  : Completion Exn (option (Promise Exn Answer)) :=
  if name =? "drop" then
    Return (Some (answered (reportProgress drop "Dropping collection")))
  else if name =? "insertMany" then
    bind (parsedArgs random args) (fun a =>
    bind (insertMany a) (fun p =>
    Return (Some (answered (reportProgress p "Inserting documents")))))
  else if name =? "insert" then
    bind (parsedArgs random args) (fun a =>
    bind (insert a) (fun p =>
    Return (Some (answered (reportProgress p "Inserting document")))))
  else if name =? "insertOne" then
    bind (parsedArgs random args) (fun a =>
    bind (insertOne a) (fun p =>
    Return (Some (answered (reportProgress p "Inserting document")))))
  else if name =? "deleteOne" then
    bind (parsedArgs random args) (fun a =>
    bind (deleteOne a) (fun p =>
    Return (Some (answered (reportProgress p "Deleting document")))))
  else if name =? "deleteMany" then
    bind (parsedArgs random args) (fun a =>
    bind (deleteMany a) (fun p =>
    Return (Some (answered (reportProgress p "Deleting documents")))))
  else if name =? "remove" then
    bind (parsedArgs random args) (fun a =>
    bind (remove a) (fun p =>
    Return (Some (answered (reportProgress p "Removing")))))
  else if name =? "count" then
    bind (parsedArgs random args) (fun a =>
    Return (Some (answered (reportProgress (count a) "Counting"))))
  else if name =? "findOne" then
    bind (parsedArgs random args) (fun a =>
    Return (Some (answered (reportProgress (findOne a) "Finding"))))
  else Return None.

Definition executeCommand (random : nat) (name : string)
           (args : option string)
  : Completion Exn (option (Promise Exn Answer)) :=
  try_catch (dispatch random name args)
            (fun error => Return (Some (Fulfilled (Caught error)))).

(** *** The driver operation behind a command *)

Definition settling {A} (c : DriverCall A) : DriverCall unit :=
  bind c (fun p => Return (then_ p (fun _ => tt))).

(** The call into the driver that the command [name] makes with the
    parsed argument [a], with its result forgotten. *)
Definition driverCallOf (name : string) (a : option Json)
  : DriverCall unit :=
  if name =? "drop" then settling (coll_drop this)
  else if name =? "insertMany" then settling (coll_insertMany this a)
  else if name =? "insert" then settling (coll_insert this a)
  else if name =? "insertOne" then settling (coll_insertOne this a)
  else if name =? "deleteOne" then settling (coll_deleteOne this a)
  else if name =? "deleteMany" then settling (coll_deleteMany this a)
  else if name =? "remove" then settling (coll_remove this a)
  else if name =? "count" then settling (coll_count this a)
  else if name =? "findOne" then settling (coll_findOne this a)
  else Return (Fulfilled tt).

(** The commands whose method is an [async] function. *)
Definition asyncCommand (name : string) : bool :=
  existsb (String.eqb name) ["drop"; "count"; "findOne"].

(** C7 in the specification's words: whatever fails, the promise that
    [executeCommand] hands back for a command is fulfilled. *)
Definition never_rejects : Prop :=
  forall random name args p,
    recognized name = true ->
    executeCommand random name args = Return (Some p) ->
    exists answer, p = Fulfilled answer.

End WithDriver.

End Commands.

(** ** The editor manager

    [CosmosEditorManager] and the [ICosmosEditor] interface. *)
Module Editor.
Import Js.

(** JavaScript objects used as maps from strings: the properties in
    insertion order. *)
Section Objects.

Context {V : Type}.

Fixpoint obj_get (key : string) (o : list (string * V)) : option V :=
  match o with
  | [] => None
  | (k, v) :: o' => if String.eqb k key then Some v else obj_get key o'
  end.

(** [o[key] = v] *)
Fixpoint obj_set (key : string) (v : V) (o : list (string * V))
  : list (string * V) :=
  match o with
  | [] => [(key, v)]
  | (k, v') :: o' =>
      if String.eqb k key then (k, v) :: o' else (k, v') :: obj_set key v o'
  end.

(** [Object.keys(o)] *)
Definition keys (o : list (string * V)) : list string := map fst o.

End Objects.

(** A value used as a condition: [undefined] and the empty string are
    falsy. *)
Definition truthy (s : option string) : bool :=
  match s with
  | None => false
  | Some s => negb (String.eqb s EmptyString)
  end.

(** The name a property key is turned into: [undefined] becomes the
    string ["undefined"]. *)
Definition propertyName (key : option string) : string :=
  match key with
  | None => "undefined"
  | Some k => k
  end.

(** What the manager takes from the JavaScript runtime and from Node. *)
Class Platform := {
  (** the data [T] of the editors, and the state of the remote store *)
  Json : Type;
  Remote : Type;
  (** errors raised by the editor host or by an editor *)
  PlatformError : Type;
  (** [JSON.parse] ([None]: it throws a [SyntaxError]) and
      [JSON.stringify(data, null, 2)] *)
  JSON_parse : string -> option Json;
  JSON_stringify : Json -> string;
  (** [path.relative(from, to) === ''], [path.join] and [os.tmpdir()] *)
  samePath : string -> string -> bool;
  path_join : list string -> string;
  tmpdir : string
}.

Section WithPlatform.

Local Open Scope string_scope.

Context `{Platform}.

Inductive Exn : Type :=
| UserCancelledError
| SyntaxError
| TypeError (property : string)
| Error (message : string)
| Failure (e : PlatformError).

Record ICosmosEditor := {
  label : string;
  id : string;
  getData : Remote -> Promise Exn Json;
  update : Json -> Remote -> Promise Exn Json * Remote
}.

(** The tree: nodes are told apart by the class of their tree item. *)
Inductive TreeItemClass : Type :=
| MongoCollectionTreeItem
| DocDBDocumentTreeItem
| MongoDocumentTreeItem
| OtherTreeItem.

Record IAzureNode := {
  nodeId : string;
  treeItem : TreeItemClass
}.

Record AzureTreeDataProvider := {
  findNode : string -> option IAzureNode
}.

(** The three editor classes are defined in files that are not among
    the sources: their constructors are parameters. *)
Class NodeEditors := {
  MongoCollectionNodeEditor : IAzureNode -> ICosmosEditor;
  DocDBDocumentNodeEditor : IAzureNode -> ICosmosEditor;
  MongoDocumentNodeEditor : IAzureNode -> ICosmosEditor
}.

Context `{NodeEditors}.

(** The items of [DialogBoxResponses] that the manager offers. *)
Inductive MessageItem : Type :=
| Yes
| Cancel
| upload
| uploadDontWarn.

(** A [TextDocument] as a method receives it, and the buffers of the
    editor host, by path. *)
Record TextDocument := {
  fsPath : string;
  getText : string;
  isDirty : bool
}.

Record Buffer := {
  text : string;
  dirty : bool
}.

(** Everything the manager reads and writes: its two fields, and the
    parts of the editor host and of the remote store it works on.
    [updateCalls] records every call of an editor's [update], with the
    editor's [id] and the data passed. *)
Record World := {
  fileMap : list (string * option ICosmosEditor);
  ignoreSave : bool;
  globalState : option (list (string * string));
  documents : list (string * Buffer);
  activeTextEditor : option string;
  showSavePrompt : option bool;
  suppressTelemetry : bool;
  remote : Remote;
  updateCalls : list (string * Json);
  output : list string
}.

(** What the host answers during one call: the user's choice in each
    dialog ([None]: dismissed), whether an edit or a save of a buffer
    goes through, and the time of day. *)
Record Host := {
  overwriteAnswer : option MessageItem;
  saveWarningAnswer : option MessageItem;
  editOutcome : string -> option Exn;
  saveOutcome : string -> Completion Exn bool;
  timestamp : string
}.

(** The manager as [new CosmosEditorManager(globalState)] leaves it. *)
Definition newManager (w : World) : World :=
  {| fileMap := [];
     ignoreSave := false;
     globalState := globalState w;
     documents := documents w;
     activeTextEditor := activeTextEditor w;
     showSavePrompt := showSavePrompt w;
     suppressTelemetry := suppressTelemetry w;
     remote := remote w;
     updateCalls := updateCalls w;
     output := output w |}.

(** *** Asynchronous code: a state and exception monad *)

Definition M (A : Type) := World -> Promise Exn A * World.

Definition ret {A} (a : A) : M A := fun w => (Fulfilled a, w).
Definition throw {A} (e : Exn) : M A := fun w => (Rejected e, w).

Definition mbind {A B} (m : M A) (k : A -> M B) : M B :=
  fun w =>
    match m w with
    | (Fulfilled a, w') => k a w'
    | (Rejected e, w') => (Rejected e, w')
    end.

(** [try { body } finally { cleanup }] *)
Definition try_finally {A} (body : M A) (cleanup : World -> World) : M A :=
  fun w => let '(r, w') := body w in (r, cleanup w').

Definition modify (f : World -> World) : M unit :=
  fun w => (Fulfilled tt, f w).

Definition read {A} (f : World -> A) : M A :=
  fun w => (Fulfilled (f w), w).

(** *** Field updates *)

Definition set_fileMap (v : list (string * option ICosmosEditor))
           (w : World) : World :=
  {| fileMap := v; ignoreSave := ignoreSave w;
     globalState := globalState w; documents := documents w;
     activeTextEditor := activeTextEditor w;
     showSavePrompt := showSavePrompt w;
     suppressTelemetry := suppressTelemetry w; remote := remote w;
     updateCalls := updateCalls w; output := output w |}.

Definition set_ignoreSave (v : bool) (w : World) : World :=
  {| fileMap := fileMap w; ignoreSave := v;
     globalState := globalState w; documents := documents w;
     activeTextEditor := activeTextEditor w;
     showSavePrompt := showSavePrompt w;
     suppressTelemetry := suppressTelemetry w; remote := remote w;
     updateCalls := updateCalls w; output := output w |}.

Definition set_globalState (v : option (list (string * string)))
           (w : World) : World :=
  {| fileMap := fileMap w; ignoreSave := ignoreSave w;
     globalState := v; documents := documents w;
     activeTextEditor := activeTextEditor w;
     showSavePrompt := showSavePrompt w;
     suppressTelemetry := suppressTelemetry w; remote := remote w;
     updateCalls := updateCalls w; output := output w |}.

Definition set_documents (v : list (string * Buffer))
           (w : World) : World :=
  {| fileMap := fileMap w; ignoreSave := ignoreSave w;
     globalState := globalState w; documents := v;
     activeTextEditor := activeTextEditor w;
     showSavePrompt := showSavePrompt w;
     suppressTelemetry := suppressTelemetry w; remote := remote w;
     updateCalls := updateCalls w; output := output w |}.

Definition set_activeTextEditor (v : option string) (w : World) : World :=
  {| fileMap := fileMap w; ignoreSave := ignoreSave w;
     globalState := globalState w; documents := documents w;
     activeTextEditor := v;
     showSavePrompt := showSavePrompt w;
     suppressTelemetry := suppressTelemetry w; remote := remote w;
     updateCalls := updateCalls w; output := output w |}.

Definition set_showSavePrompt (v : option bool) (w : World) : World :=
  {| fileMap := fileMap w; ignoreSave := ignoreSave w;
     globalState := globalState w; documents := documents w;
     activeTextEditor := activeTextEditor w;
     showSavePrompt := v;
     suppressTelemetry := suppressTelemetry w; remote := remote w;
     updateCalls := updateCalls w; output := output w |}.

Definition set_suppressTelemetry (v : bool) (w : World) : World :=
  {| fileMap := fileMap w; ignoreSave := ignoreSave w;
     globalState := globalState w; documents := documents w;
     activeTextEditor := activeTextEditor w;
     showSavePrompt := showSavePrompt w;
     suppressTelemetry := v; remote := remote w;
     updateCalls := updateCalls w; output := output w |}.

Definition set_remote (v : Remote) (w : World) : World :=
  {| fileMap := fileMap w; ignoreSave := ignoreSave w;
     globalState := globalState w; documents := documents w;
     activeTextEditor := activeTextEditor w;
     showSavePrompt := showSavePrompt w;
     suppressTelemetry := suppressTelemetry w; remote := v;
     updateCalls := updateCalls w; output := output w |}.

Definition set_updateCalls (v : list (string * Json)) (w : World) : World :=
  {| fileMap := fileMap w; ignoreSave := ignoreSave w;
     globalState := globalState w; documents := documents w;
     activeTextEditor := activeTextEditor w;
     showSavePrompt := showSavePrompt w;
     suppressTelemetry := suppressTelemetry w; remote := remote w;
     updateCalls := v; output := output w |}.

Definition set_output (v : list string) (w : World) : World :=
  {| fileMap := fileMap w; ignoreSave := ignoreSave w;
     globalState := globalState w; documents := documents w;
     activeTextEditor := activeTextEditor w;
     showSavePrompt := showSavePrompt w;
     suppressTelemetry := suppressTelemetry w; remote := remote w;
     updateCalls := updateCalls w; output := v |}.

Notation "x <- m ;; k" := (mbind m (fun x => k))
  (at level 61, m at next level, right associativity).
Notation "m ;;; k" := (mbind m (fun _ => k))
  (at level 61, right associativity).

(** *** The editor host and the editors *)

Section WithHost.

Variable host : Host.

(** [fse.ensureFile(path)]: an absent file is created empty. *)
Definition ensureFile (path : string) : M unit :=
  modify (fun w =>
    match obj_get path (documents w) with
    | Some _ => w
    | None =>
        set_documents
          (obj_set path {| text := EmptyString; dirty := false |}
                   (documents w)) w
    end).

(** [vscode.workspace.openTextDocument(path)] fails on a file that does
    not exist. *)
Definition openTextDocument (path : string) : M TextDocument :=
  fun w =>
    match obj_get path (documents w) with
    | Some b =>
        (Fulfilled {| fsPath := path; getText := text b;
                      isDirty := dirty b |}, w)
    | None => (Rejected (Error ("cannot open " ++ path)), w)
    end.

(** [vscode.window.showTextDocument(document)]: the document is shown in
    the active editor.  A text editor is named by the path of its
    document. *)
Definition showTextDocument (document : TextDocument) : M string :=
  fun w => (Fulfilled (fsPath document),
            set_activeTextEditor (Some (fsPath document)) w).

(** Modelled from the spec: [util.writeToEditor] of [utils/vscodeUtils],
    which is not among the sources, replaces the entire content of the
    editor's buffer by the given text.  On an [undefined] editor it
    fails, and the host may refuse the edit. *)
Definition writeToEditor (textEditor : option string) (data : string)
  : M unit :=
  match textEditor with
  | None => throw (TypeError "edit")
  | Some path =>
      match editOutcome host path with
      | Some e => throw e
      | None =>
          modify (fun w =>
            set_documents
              (obj_set path {| text := data; dirty := true |}
                       (documents w)) w)
      end
  end.

(** [textEditor.document.save()]: a save that goes through clears the
    dirty flag.  The notification the host sends for it is a call of
    [onDidSaveTextDocument] of its own, made by the entry point of the
    extension, which is not among the sources. *)
Definition save (textEditor : option string) : M bool :=
  match textEditor with
  | None => throw (TypeError "document")
  | Some path =>
      match saveOutcome host path with
      | Throw e => throw e
      | Return false => ret false
      | Return true =>
          fun w =>
            (Fulfilled true,
             match obj_get path (documents w) with
             | Some b =>
                 set_documents
                   (obj_set path {| text := text b; dirty := false |}
                            (documents w)) w
             | None => w
             end)
      end
  end.

(** [editor.getData()] and [editor.update(data)], on the remote store. *)
Definition call_getData (editor : ICosmosEditor) : M Json :=
  fun w => (getData editor (remote w), w).

Definition call_update (editor : ICosmosEditor) (data : Json) : M Json :=
  fun w =>
    let '(r, remote') := update editor data (remote w) in
    (r, set_remote remote'
          (set_updateCalls (updateCalls w ++ [(id editor, data)])%list w)).

(** [this.fileMap[filePath]] *)
Definition fileMap_at (w : World) (filePath : option string)
  : option ICosmosEditor :=
  match obj_get (propertyName filePath) (fileMap w) with
  | Some editor => editor
  | None => None
  end.

(** [Object.keys(o).find((key) => path.relative(fsPath, key) === '')] *)
Definition findPath {V} (fsPath : string) (o : list (string * V))
  : option string :=
  find (fun key => samePath fsPath key) (keys o).

(** *** [CosmosEditorManager] *)

Definition updateEditor (data : Json) (textEditor : option string)
  : M unit :=
  writeToEditor textEditor (JSON_stringify data) ;;;
  modify (set_ignoreSave true) ;;;
  try_finally (save textEditor ;;; ret tt) (set_ignoreSave false).

(** The [forEach] of [showDocument]: the labels object is filled key by
    key, until an [undefined] editor is met. *)
Fixpoint forEach_labels (entries : list (string * option ICosmosEditor))
         (fileMapLabels : list (string * string))
  : list (string * string) * option Exn :=
  match entries with
  | [] => (fileMapLabels, None)
  | (key, None) :: _ => (fileMapLabels, Some (TypeError "id"))
  | (key, Some editor) :: entries' =>
      forEach_labels entries' (obj_set key (id editor) fileMapLabels)
  end.

(** [globalState.get] hands out the stored object itself, so the labels
    written before an exception are written to the stored table. *)
Definition persistLabels : M unit :=
  fun w =>
    let stored := globalState w in
    let '(fileMapLabels, failure) :=
      forEach_labels (fileMap w)
                     (match stored with Some t => t | None => [] end) in
    match failure with
    | Some e =>
        (Rejected e,
         match stored with
         | Some _ => set_globalState (Some fileMapLabels) w
         | None => w
         end)
    | None => (Fulfilled tt, set_globalState (Some fileMapLabels) w)
    end.

Definition localDocPathOf (fileName : string) : string :=
  path_join [tmpdir; "vscode-cosmosdb-editor"; fileName].

Definition showDocument (editor : ICosmosEditor) (fileName : string)
  : M unit :=
  let localDocPath := localDocPathOf fileName in
  ensureFile localDocPath ;;;
  document <- openTextDocument localDocPath ;;
  (if isDirty document then
     match overwriteAnswer host with
     | Some Yes => ret tt
     | _ => throw UserCancelledError
     end
   else ret tt) ;;;
  modify (fun w =>
    set_fileMap (obj_set localDocPath (Some editor) (fileMap w)) w) ;;;
  persistLabels ;;;
  textEditor <- showTextDocument document ;;
  data <- call_getData editor ;;
  updateEditor data (Some textEditor).

Definition updateToCloud (editor : option ICosmosEditor)
           (doc : TextDocument) : M unit :=
  match editor with
  | None => throw (TypeError "update")
  | Some editor =>
      match JSON_parse (getText doc) with
      | None => throw SyntaxError
      | Some data =>
          updatedDoc <- call_update editor data ;;
          modify (fun w =>
            set_output
              (output w ++
               [(timestamp host ++ ": Updated entity " ++ quote
                 ++ label editor ++ quote)%string])%list w) ;;;
          activeEditor <- read activeTextEditor ;;
          updateEditor updatedDoc activeEditor
      end
  end.

(** The chain of [instanceof] tests of [loadPersistedEditor]; a node of
    another class leaves [editor] undefined. *)
Definition editorOfNode (editorNode : IAzureNode) : option ICosmosEditor :=
  match treeItem editorNode with
  | MongoCollectionTreeItem => Some (MongoCollectionNodeEditor editorNode)
  | DocDBDocumentTreeItem => Some (DocDBDocumentNodeEditor editorNode)
  | MongoDocumentTreeItem => Some (MongoDocumentNodeEditor editorNode)
  | OtherTreeItem => None
  end.

Definition entityNotFound : string :=
  "Failed to find entity on the tree. Please check the explorer to confirm that the entity exists, and that permissions are intact.".

Definition loadPersistedEditor (documentUri : string)
           (tree : option AzureTreeDataProvider) : M (option string) :=
  persisted <- read globalState ;;
  match persisted with
  | None => ret None
  | Some persistedEditors =>
      let editorFilePath := findPath documentUri persistedEditors in
      (if truthy editorFilePath then
         match tree with
         | None => throw (TypeError "findNode")
         | Some tree =>
             match findNode tree
                     (propertyName
                        (obj_get (propertyName editorFilePath)
                                 persistedEditors)) with
             | Some editorNode =>
                 modify (fun w =>
                   set_fileMap
                     (obj_set (propertyName editorFilePath)
                              (editorOfNode editorNode) (fileMap w)) w)
             | None => throw (Error entityNotFound)
             end
         end
       else ret tt) ;;;
      ret editorFilePath
  end.

(** The lookup both entry points start with: the in-memory table, then
    the persisted one. *)
Definition resolveFilePath (fsPath : string)
           (tree : option AzureTreeDataProvider) : M (option string) :=
  filePath <- read (fun w => findPath fsPath (fileMap w)) ;;
  if truthy filePath then ret filePath
  else loadPersistedEditor fsPath tree.

Definition updateMatchingNode (documentUri : string)
           (tree : option AzureTreeDataProvider) : M unit :=
  filePath <- resolveFilePath documentUri tree ;;
  document <- openTextDocument documentUri ;;
  editor <- read (fun w => fileMap_at w filePath) ;;
  updateToCloud editor document.

(** The [context] argument is the field [suppressTelemetry] of the
    world; the [globalState] argument is not used by the method. *)
Definition onDidSaveTextDocument (doc : TextDocument)
           (tree : option AzureTreeDataProvider) : M unit :=
  modify (set_suppressTelemetry true) ;;;
  filePath <- resolveFilePath (fsPath doc) tree ;;
  ignore <- read ignoreSave ;;
  if negb ignore && truthy filePath then
    modify (set_suppressTelemetry false) ;;;
    editor <- read (fun w => fileMap_at w filePath) ;;
    showSaveWarning <- read showSavePrompt ;;
    (match showSaveWarning with
     | Some false => ret tt
     | _ =>
         match editor with
         | None => throw (TypeError "label")
         | Some _ =>
             match saveWarningAnswer host with
             | Some uploadDontWarn =>
                 modify (set_showSavePrompt (Some false))
             | Some upload => ret tt
             | _ => throw UserCancelledError
             end
         end
     end) ;;;
    updateToCloud editor doc
  else ret tt.

End WithHost.

(** *** States of the manager *)

(** A computation keeps the flag clear when it leaves it clear in every
    world where it found it clear. *)
Definition keeps_flag {A} (m : M A) : Prop :=
  forall w, ignoreSave w = false -> ignoreSave (snd (m w)) = false.

(** The worlds a manager can be in between two calls: it is created,
    its methods are called (the editor rewrite among them), and between
    calls the host, the user and the remote store change everything
    but the two private fields. *)
Inductive reachable : World -> Prop :=
| reach_new w : reachable (newManager w)
| reach_showDocument host editor fileName w :
    reachable w -> reachable (snd (showDocument host editor fileName w))
| reach_updateMatchingNode host documentUri tree w :
    reachable w ->
    reachable (snd (updateMatchingNode host documentUri tree w))
| reach_onDidSaveTextDocument host doc tree w :
    reachable w -> reachable (snd (onDidSaveTextDocument host doc tree w))
| reach_updateEditor host data textEditor w :
    reachable w -> reachable (snd (updateEditor host data textEditor w))
| reach_outside w w' :
    reachable w -> fileMap w' = fileMap w -> ignoreSave w' = ignoreSave w ->
    reachable w'.

(** The persisted entry for a path, as [loadPersistedEditor] looks it
    up. *)
Definition persistedPath (w : World) (fsPath : string) : option string :=
  match globalState w with
  | Some persistedEditors => findPath fsPath persistedEditors
  | None => None
  end.

(** The same host with another answer to the save warning. *)
Definition answering (answer : option MessageItem) (host : Host) : Host :=
  {| overwriteAnswer := overwriteAnswer host;
     saveWarningAnswer := answer;
     editOutcome := editOutcome host;
     saveOutcome := saveOutcome host;
     timestamp := timestamp host |}.

(** *** Invariants *)

(** A computation preserves a property of the world. *)
Definition preserves (P : World -> Prop) {A} (m : M A) : Prop :=
  forall w, P w -> P (snd (m w)).

(** [this._globalState.get(this._persistedEditorsKey, {})] *)
Definition storedLabels (w : World) : list (string * string) :=
  match globalState w with
  | Some persistedEditors => persistedEditors
  | None => []
  end.

(** The keys of the persisted table. *)
Definition persistedKeys (w : World) : list string :=
  match globalState w with
  | Some persistedEditors => keys persistedEditors
  | None => []
  end.

(** The second world has every binding of the first, in memory and in
    the persisted table (maybe with another editor or identifier). *)
Definition grows (w w' : World) : Prop :=
  incl (keys (fileMap w)) (keys (fileMap w')) /\
  incl (persistedKeys w) (persistedKeys w').

End WithPlatform.

End Editor.

(** ** Scenarios

    Small instances of the parameters, on which the definitions run. *)
Module CommandsScenario.
Import Js Commands.

Local Open Scope string_scope.

(** A runtime whose values are the source text of JavaScript values, and
    whose evaluator accepts the texts that close a brace. *)
Definition textRuntime : Runtime := {|
  Json := string;
  DriverError := string;
  stringify := fun v => v;
  JSON_stringify := fun v => v;
  pick := fun _ v => v;
  runInNewContext := fun code =>
    match index 0 "}" code with
    | Some _ => Evaluated code
    | None => Raised "Unexpected end of input"
    end;
  IMongoDocument := string * string;
  RawId := string;
  ObjectID_t := string;
  _id := fst;
  omit_id := snd;
  ObjectID := fun raw =>
    if Nat.eqb (String.length raw) 24 then Return raw
    else Throw (ThrownMessage "Argument passed in must be 24 hex characters")
|}.

#[local] Existing Instance textRuntime.

(** A collection that was dropped meanwhile: [drop] is rejected by the
    server, the other operations go through. *)
Definition dropped : Collection := {|
  collectionName := "orders";
  coll_drop := Return (Rejected (ThrownError "ns not found"));
  coll_findOne := fun _ => Return (Fulfilled "null");
  coll_insert := fun _ => Return (Fulfilled "{ insertedCount: 1 }");
  coll_insertOne := fun _ => Return (Fulfilled "{ insertedCount: 1 }");
  coll_insertMany := fun _ => Return (Fulfilled "{ insertedCount: 2 }");
  coll_remove := fun _ => Return (Fulfilled "{ ops: [] }");
  coll_deleteOne := fun _ => Return (Fulfilled "{ deletedCount: 0 }");
  coll_deleteMany := fun _ => Return (Fulfilled "{ deletedCount: 0 }");
  coll_count := fun _ => Return (Fulfilled "0");
  coll_bulkWrite := fun operations =>
    Return (Fulfilled {| modifiedCount := List.length operations;
                         insertedCount := 0 |})
|}.

Definition order : string * string :=
  ("5a9427648b0beebeb69579e7", "{ total: 12 }").

End CommandsScenario.

Module EditorScenario.
Import Js Editor.

Local Open Scope string_scope.

(** A platform whose documents are natural numbers, written in decimal
    as JSON writes them; paths are compared as strings. *)
Definition parseNumber (s : string) : option nat :=
  match NilZero.uint_of_string s with
  | Some u => Some (Nat.of_uint u)
  | None => None
  end.

Definition numbers : Platform := {|
  Json := nat;
  Remote := nat;
  PlatformError := unit;
  JSON_parse := parseNumber;
  JSON_stringify := decimal;
  samePath := String.eqb;
  path_join := String.concat "/";
  tmpdir := "/tmp"
|}.

#[local] Existing Instance numbers.

(** An entity that holds one number; [update] stores ten times what it is
    given and answers with what it stored. *)
Definition item : ICosmosEditor := {|
  label := "item";
  id := "db/coll/item";
  getData := fun r => Fulfilled r;
  update := fun d r => (Fulfilled (d * 10), d * 10)
|}.

Definition itemEditors : NodeEditors := {|
  MongoCollectionNodeEditor := fun _ => item;
  DocDBDocumentNodeEditor := fun _ => item;
  MongoDocumentNodeEditor := fun _ => item
|}.

#[local] Existing Instance itemEditors.

(** A host where every edit and save goes through and the user agrees. *)
Definition agreeing : Host := {|
  overwriteAnswer := Some Yes;
  saveWarningAnswer := Some upload;
  editOutcome := fun _ => None;
  saveOutcome := fun _ => Return true;
  timestamp := "10:00:00"
|}.

(** A host where every save fails with an exception. *)
Definition diskFull : Host := {|
  overwriteAnswer := Some Yes;
  saveWarningAnswer := Some upload;
  editOutcome := fun _ => None;
  saveOutcome := fun _ => Throw (Error "ENOSPC");
  timestamp := "10:00:00"
|}.

Definition notes : string := "/home/notes.txt".
Definition itemPath : string := "/tmp/vscode-cosmosdb-editor/item.json".

(** A new manager; the user has a file of notes open, and the remote
    item holds 7. *)
Definition start : World := {|
  fileMap := [];
  ignoreSave := false;
  globalState := None;
  documents := [(notes, {| text := "my notes"; dirty := false |})];
  activeTextEditor := Some notes;
  showSavePrompt := None;
  suppressTelemetry := false;
  remote := 7;
  updateCalls := [];
  output := []
|}.

(** The item is shown in an editor. *)
Definition shown : World := snd (showDocument agreeing item "item.json" start).

(** The user types 8 in place of 7, goes back to the notes, and the
    buffer of the item is saved (by Save All, or by auto save on focus
    change). *)
Definition edited : World :=
  set_activeTextEditor (Some notes)
    (set_documents
       (obj_set itemPath {| text := "8"; dirty := false |} (documents shown))
       shown).

Definition savedItem : TextDocument :=
  {| fsPath := itemPath; getText := "8"; isDirty := false |}.

(** After a restart: the binding of the item is only in the persisted
    table, and the entity is gone from the tree. *)
Definition restarted : World := {|
  fileMap := [];
  ignoreSave := false;
  globalState := Some [(itemPath, "db/coll/item")];
  documents := [(itemPath, {| text := "8"; dirty := false |})];
  activeTextEditor := Some itemPath;
  showSavePrompt := None;
  suppressTelemetry := false;
  remote := 7;
  updateCalls := [];
  output := []
|}.

Definition emptyTree : AzureTreeDataProvider :=
  {| findNode := fun _ => None |}.

(** A second entity, which refuses every update. *)
Definition readOnly : ICosmosEditor := {|
  label := "archive";
  id := "db/coll/archive";
  getData := fun r => Fulfilled r;
  update := fun d r => (Rejected (Error "forbidden"), r)
|}.

(** A host whose user declines every dialog. *)
Definition declining : Host := {|
  overwriteAnswer := Some Cancel;
  saveWarningAnswer := Some Cancel;
  editOutcome := fun _ => None;
  saveOutcome := fun _ => Return true;
  timestamp := "10:00:00"
|}.

(** The item is shown and the user has typed 8 without saving. *)
Definition typing : World :=
  set_documents
    (obj_set itemPath {| text := "8"; dirty := true |} (documents shown))
    shown.

(** The user typed 8 in the buffer of the item and saved it, the editor
    of the item still active. *)
Definition saved : World :=
  set_documents
    (obj_set itemPath {| text := "8"; dirty := false |} (documents shown))
    shown.

(** A tree that finds every entity, as a Mongo document. *)
Definition liveTree : AzureTreeDataProvider :=
  {| findNode := fun entityId =>
       Some {| nodeId := entityId; treeItem := MongoDocumentTreeItem |} |}.

(** A tree that finds every entity, as a node of a class the manager
    does not know. *)
Definition foreignTree : AzureTreeDataProvider :=
  {| findNode := fun entityId =>
       Some {| nodeId := entityId; treeItem := OtherTreeItem |} |}.

(** After a restart, the item was looked up in the foreign tree. *)
Definition foreign : World :=
  snd (updateMatchingNode agreeing itemPath (Some foreignTree) restarted).

End EditorScenario.

(** * Properties *)

(** ** Paging *)
Module PagingFacts.
Import Paging.

Section WithCollection.

Variable IMongoDocument : Type.
Variable Query : Type.
Variable DefaultBatchSize : nat.

(** The loop delivers the first [todo] documents of the cursor, leaves
    the rest in it, and records whether it ran out of documents. *)
Lemma fetch_loop_spec (todo : nat) :
  forall (cur : Cursor IMongoDocument) hasMore documents,
    fetch_loop todo cur hasMore documents =
    (documents ++ firstn todo cur, skipn todo cur,
     if todo =? 0 then hasMore else todo <=? length cur).
Proof.
  induction todo as [|todo IH]; intros cur hasMore documents.
  - cbn. now rewrite app_nil_r.
  - destruct cur as [|d cur]; cbn [fetch_loop next hasNext].
    + cbn. now rewrite app_nil_r.
    + rewrite IH, <- app_assoc. cbn [app firstn skipn length Nat.eqb].
      f_equal. destruct todo; reflexivity.
Qed.

Lemma documentsOf_wrap (coll : Collection IMongoDocument Query) ds :
  documentsOf (wrap coll ds) = ds.
Proof.
  unfold documentsOf, wrap. rewrite map_map. cbn. apply map_id.
Qed.

Lemma load_opened (coll : Collection IMongoDocument Query)
      query cur hasMore b :
  loadMoreChildren DefaultBatchSize false (opened coll query cur hasMore b) =
  (wrap coll (firstn b cur),
   opened coll query (skipn b cur)
          (if b =? 0 then hasMore else b <=? length cur) (b * 2)).
Proof.
  unfold loadMoreChildren, opened. cbn [_cursor _batchSize collection _query
    _hasMoreChildren]. now rewrite fetch_loop_spec.
Qed.

Lemma load_reset clearCache
      (this : MongoCollectionTreeItem IMongoDocument Query) :
  clearCache = true \/ _cursor this = None ->
  loadMoreChildren DefaultBatchSize clearCache this =
  loadMoreChildren DefaultBatchSize false
    (opened (collection this) (_query this)
            (find (collection this) (_query this))
            (_hasMoreChildren this) DefaultBatchSize).
Proof.
  intros H. unfold loadMoreChildren, opened.
  cbn [_cursor _batchSize collection _query _hasMoreChildren].
  destruct H as [-> | ->]; [destruct (_cursor this)|destruct clearCache];
    reflexivity.
Qed.

Lemma asked_succ b k : asked b (S k) = b + asked (b * 2) k.
Proof.
  unfold asked. rewrite Nat.pow_succ_r'.
  assert (1 <= 2 ^ k) by (apply Nat.neq_0_lt_0, Nat.pow_nonzero; lia).
  nia.
Qed.

Lemma asked_le b i k : i <= k -> asked b i <= asked b k.
Proof.
  intros Hik. unfold asked.
  assert (2 ^ i <= 2 ^ k) by (apply Nat.pow_le_mono_r; lia).
  nia.
Qed.

Lemma asked_ge b k : 0 < b -> k <= asked b k.
Proof.
  intros Hb. unfold asked.
  assert (k < 2 ^ k) by (apply Nat.pow_gt_lin_r; lia).
  nia.
Qed.

Lemma fetchMany_opened k :
  forall (coll : Collection IMongoDocument Query) query
         (cur : Cursor IMongoDocument) hasMore b,
    fetchMany DefaultBatchSize k (opened coll query cur hasMore b) =
    (map (fun i => wrap coll (firstn (b * 2 ^ i) (skipn (asked b i) cur)))
         (seq 0 k),
     opened coll query (skipn (asked b k) cur)
            (if (k =? 0) || (b =? 0) then hasMore
             else asked b k <=? length cur)
            (b * 2 ^ k)).
Proof.
  induction k as [|k IH]; intros coll query cur hasMore b.
  - cbn. unfold asked. cbn. now rewrite Nat.mul_0_r, Nat.mul_1_r.
  - cbn [fetchMany]. rewrite load_opened, IH. f_equal.
    + cbn [seq map]. f_equal.
      * unfold asked. cbn. now rewrite Nat.mul_0_r, Nat.mul_1_r.
      * rewrite <- seq_shift, map_map. apply map_ext. intros i.
        rewrite skipn_skipn, asked_succ, Nat.pow_succ_r'.
        replace (b * 2 * 2 ^ i) with (b * (2 * 2 ^ i)) by lia.
        now rewrite (Nat.add_comm _ b).
    + rewrite skipn_skipn, asked_succ, Nat.pow_succ_r', length_skipn.
      replace (b * 2 * 2 ^ k) with (b * (2 * 2 ^ k)) by lia.
      replace (asked (b * 2) k + b) with (b + asked (b * 2) k) by lia.
      f_equal.
      destruct b as [|b]; [now rewrite orb_true_r; destruct k|].
      rewrite orb_false_r. cbn [Nat.eqb orb].
      destruct k as [|k]; cbn [Nat.eqb].
      * unfold asked. cbn. rewrite Nat.mul_0_r, Nat.add_0_r. reflexivity.
      * cbn [Nat.mul Nat.add Nat.eqb].
        apply eq_true_iff_eq. rewrite !Nat.leb_le.
        assert (S k <= asked (S (S (b * 2))) (S k))
          by (apply asked_ge; lia).
        lia.
Qed.

Lemma asked_next b k : asked b (S k) = asked b k + b * 2 ^ k.
Proof.
  unfold asked. rewrite Nat.pow_succ_r'.
  assert (1 <= 2 ^ k) by (apply Nat.neq_0_lt_0, Nat.pow_nonzero; lia).
  nia.
Qed.

Lemma firstn_plus (A : Type) (a b : nat) :
  forall l : list A, firstn (a + b) l = firstn a l ++ firstn b (skipn a l).
Proof.
  induction a as [|a IH]; intros [|x l]; cbn; try reflexivity.
  - now rewrite firstn_nil.
  - now rewrite IH.
Qed.

Lemma fetchMany_new (coll : Collection IMongoDocument Query) query k :
  fetchMany DefaultBatchSize (S k) (newTreeItem DefaultBatchSize coll query) =
  fetchMany DefaultBatchSize (S k)
            (opened coll query (find coll query) true DefaultBatchSize).
Proof.
  cbn [fetchMany]. rewrite load_reset by (right; reflexivity). reflexivity.
Qed.

(** The batches of the first [k] calls on a new tree item. *)
Lemma batches_new (coll : Collection IMongoDocument Query) query k :
  fst (fetchMany DefaultBatchSize k (newTreeItem DefaultBatchSize coll query)) =
  map (fun i => wrap coll (firstn (DefaultBatchSize * 2 ^ i)
                                  (skipn (asked DefaultBatchSize i)
                                         (find coll query))))
      (seq 0 k).
Proof.
  destruct k as [|k]; [reflexivity|].
  now rewrite fetchMany_new, fetchMany_opened.
Qed.

Lemma hasMore_new (coll : Collection IMongoDocument Query) query k :
  0 < DefaultBatchSize ->
  hasMoreChildren
    (snd (fetchMany DefaultBatchSize k
                    (newTreeItem DefaultBatchSize coll query))) =
  (k =? 0) || (asked DefaultBatchSize k <=? length (find coll query)).
Proof.
  intros HB. destruct k as [|k]; [reflexivity|].
  rewrite fetchMany_new, fetchMany_opened. cbn [snd Nat.eqb orb].
  unfold hasMoreChildren, opened. cbn [_hasMoreChildren].
  destruct DefaultBatchSize; [lia|reflexivity].
Qed.

Lemma nth_batch (coll : Collection IMongoDocument Query)
      (f : nat -> list IMongoDocument) k i :
  i < k ->
  nth i (map (fun j => wrap coll (f j)) (seq 0 k)) [] = wrap coll (f i).
Proof.
  intros Hi.
  rewrite (nth_indep _ [] (wrap coll (f 0)))
    by now rewrite length_map, length_seq.
  rewrite (map_nth (fun j => wrap coll (f j))), seq_nth by assumption.
  reflexivity.
Qed.

Lemma concat_batches (coll : Collection IMongoDocument Query) b
      (docs : list IMongoDocument) k :
  concat (map (@documentsOf _ _)
              (map (fun i => wrap coll (firstn (b * 2 ^ i)
                                               (skipn (asked b i) docs)))
                   (seq 0 k))) =
  firstn (asked b k) docs.
Proof.
  induction k as [|k IH].
  - unfold asked. cbn. now rewrite Nat.mul_0_r.
  - rewrite seq_S, !map_app, concat_app, IH. cbn [map concat Nat.add].
    now rewrite documentsOf_wrap, app_nil_r, asked_next, firstn_plus.
Qed.

Lemma batch_clipped (docs : list IMongoDocument) b a :
  firstn b (skipn a docs) =
  firstn (Nat.min b (length docs - Nat.min (length docs) a))
         (skipn (Nat.min (length docs) a) docs).
Proof.
  destruct (Nat.le_gt_cases a (length docs)) as [Hle|Hgt].
  - rewrite (Nat.min_r _ _ Hle), <- (length_skipn a docs).
    now rewrite <- firstn_firstn, firstn_all.
  - rewrite (Nat.min_l (length docs) a) by lia.
    rewrite skipn_all, skipn_all2 by lia. now rewrite !firstn_nil.
Qed.

(** C1 (amended).  With a default batch size of at least one, the
    first [k] calls [loadMoreChildren(node, false)] on a new tree item
    return batches of [min(B, remaining)], [min(2B, remaining)],
    [min(4B, remaining)], ... documents, each the next documents of the
    collection in the cursor's order; together they are a prefix of the
    collection, and the whole collection once the sizes asked for add up
    to its size, which they do after at most as many calls as it has
    documents.
    [hasMoreChildren] is false exactly when one of the batches fetched
    so far came back shorter than the size asked for. *)
Theorem pagination_exhaustion
        (coll : Collection IMongoDocument Query) query k :
  0 < DefaultBatchSize ->
  let docs := find coll query in
  let N := length docs in
  let delivered i := Nat.min N (asked DefaultBatchSize i) in
  let run := fetchMany DefaultBatchSize k
                       (newTreeItem DefaultBatchSize coll query) in
  length (fst run) = k /\
  (forall i, i < k ->
     documentsOf (nth i (fst run) []) =
     firstn (Nat.min (DefaultBatchSize * 2 ^ i) (N - delivered i))
            (skipn (delivered i) docs)) /\
  (forall i, i < k ->
     length (nth i (fst run) []) =
     Nat.min (DefaultBatchSize * 2 ^ i) (N - delivered i)) /\
  concat (map (@documentsOf _ _) (fst run)) = firstn (delivered k) docs /\
  (N <= asked DefaultBatchSize k ->
   concat (map (@documentsOf _ _) (fst run)) = docs) /\
  N <= asked DefaultBatchSize N /\
  (hasMoreChildren (snd run) = false <->
   exists i, i < k /\
             length (nth i (fst run) []) < DefaultBatchSize * 2 ^ i).
Proof.
  intros HB docs N delivered run.
  assert (Hnth : forall i, i < k ->
            nth i (fst run) [] =
            wrap coll (firstn (DefaultBatchSize * 2 ^ i)
                              (skipn (asked DefaultBatchSize i) docs))).
  { intros i Hi. unfold run. rewrite batches_new.
    now rewrite (nth_batch coll
      (fun j => firstn (DefaultBatchSize * 2 ^ j)
                       (skipn (asked DefaultBatchSize j) docs))). }
  assert (Hlen : forall i, i < k ->
            length (nth i (fst run) []) =
            Nat.min (DefaultBatchSize * 2 ^ i) (N - delivered i)).
  { intros i Hi. rewrite (Hnth i Hi). unfold wrap.
    rewrite length_map, batch_clipped, length_firstn, length_skipn.
    fold N. unfold delivered. lia. }
  assert (Hcat : concat (map (@documentsOf _ _) (fst run)) =
                 firstn (delivered k) docs).
  { unfold run. rewrite batches_new, concat_batches. fold docs.
    unfold delivered, N.
    now rewrite Nat.min_comm, <- firstn_firstn, firstn_all. }
  repeat split.
  - unfold run. now rewrite batches_new, length_map, length_seq.
  - intros i Hi. rewrite (Hnth i Hi), documentsOf_wrap.
    apply batch_clipped.
  - exact Hlen.
  - exact Hcat.
  - intros HN. rewrite Hcat. unfold delivered.
    rewrite Nat.min_l by lia. apply firstn_all.
  - now apply asked_ge.
  - unfold run. rewrite hasMore_new by assumption. fold docs N.
    intros Hfalse. apply orb_false_elim in Hfalse as [Hk Hleb].
    apply Nat.eqb_neq in Hk. apply Nat.leb_gt in Hleb.
    destruct k as [|k]; [congruence|]. exists k. split; [lia|].
    rewrite Hlen by lia. unfold delivered.
    rewrite asked_next in Hleb.
    assert (0 < DefaultBatchSize * 2 ^ k)
      by (apply Nat.mul_pos_pos; [assumption|];
          apply Nat.neq_0_lt_0, Nat.pow_nonzero; lia).
    lia.
  - intros [i [Hi Hshort]]. rewrite (Hlen i Hi) in Hshort.
    unfold run. rewrite hasMore_new by assumption. fold docs N.
    pose proof (@asked_le DefaultBatchSize (S i) k Hi) as Hmono.
    rewrite asked_next in Hmono. unfold delivered in Hshort.
    apply orb_false_intro; [apply Nat.eqb_neq|apply Nat.leb_gt]; lia.
Qed.

(** C6.  A call with [clearCache] set, or on a tree item that has no
    cursor yet, opens a new cursor on [find(_query)] and fetches with
    the default batch size: it returns the first [DefaultBatchSize]
    documents of the collection (all of them when there are fewer),
    whatever cursor, batch size and flag the tree item held before, and
    leaves the cursor just behind them with the batch size doubled. *)
Theorem reset_semantics
        clearCache (this : MongoCollectionTreeItem IMongoDocument Query) :
  clearCache = true \/ _cursor this = None ->
  let docs := find (collection this) (_query this) in
  let res := loadMoreChildren DefaultBatchSize clearCache this in
  documentsOf (fst res) = firstn DefaultBatchSize docs /\
  length (fst res) = Nat.min DefaultBatchSize (length docs) /\
  _cursor (snd res) = Some (skipn DefaultBatchSize docs) /\
  _batchSize (snd res) = DefaultBatchSize * 2 /\
  collection (snd res) = collection this /\
  _query (snd res) = _query this /\
  (0 < DefaultBatchSize ->
   hasMoreChildren (snd res) = (DefaultBatchSize <=? length docs)).
Proof.
  intros H docs res. unfold res.
  rewrite load_reset by exact H. rewrite load_opened. fold docs.
  cbn [fst snd].
  rewrite documentsOf_wrap. unfold wrap.
  rewrite length_map, length_firstn.
  repeat split.
  intros HB. unfold hasMoreChildren, opened. cbn [_hasMoreChildren].
  destruct DefaultBatchSize; [lia|reflexivity].
Qed.

End WithCollection.

End PagingFacts.

(** ** Paging: instances *)
Module PagingExamples.
Import Paging PagingFacts.

(** [pagination_exhaustion] on a collection of three documents with a
    default batch size of two, after two calls. *)
Lemma pagination_exhaustion_witness :
  0 < 2 /\
  let coll := {| find := fun _ : option unit => [10; 20; 30] |} in
  let run := fetchMany 2 2 (newTreeItem 2 coll None) in
  (length (nth 0 (fst run) []) = 2 /\ length (nth 1 (fst run) []) = 1) /\
  concat (map (@documentsOf _ _) (fst run)) = [10; 20; 30] /\
  (hasMoreChildren (snd run) = false <->
   exists i, i < 2 /\ length (nth i (fst run) []) < 2 * 2 ^ i).
Proof.
  split; [lia|].
  destruct (@pagination_exhaustion nat unit 2
              {| find := fun _ : option unit => [10; 20; 30] |} None 2
              ltac:(lia)) as (_ & _ & Hlen & _ & Hall & _ & Hmore).
  split; [split; [apply (Hlen 0)|apply (Hlen 1)]; lia|].
  split; [apply Hall; vm_compute; lia|exact Hmore].
Defined.

(** C1, as worded, fails on a collection whose size is the default batch
    size: the first batch holds both documents, the second of the two
    included, and [hasMoreChildren] still answers true. *)
Lemma hasMore_after_full_batch :
  let coll := {| find := fun _ : option unit => [10; 20] |} in
  let run := fetchMany 2 1 (newTreeItem 2 coll None) in
  (map (@documentsOf _ _) (fst run) = [[10; 20]] /\
   hasMoreChildren (snd run) = true) /\
  ~ hasMore_false_exactly_after_last_document 2 coll None.
Proof.
  cbv zeta. split; [split; reflexivity|].
  intros H. specialize (H 1 (le_n 1)). cbv zeta in H.
  destruct H as [_ H]. discriminate (H eq_refl).
Qed.

(** [reset_semantics] on a tree item that was paged through before. *)
Lemma reset_semantics_witness :
  let coll := {| find := fun _ : option unit => [10; 20; 30] |} in
  let this := {| collection := coll; _query := None; _cursor := Some [];
                 _hasMoreChildren := false; _batchSize := 8 |} in
  documentsOf (fst (loadMoreChildren 2 true this)) = [10; 20] /\
  _batchSize (snd (loadMoreChildren 2 true this)) = 4.
Proof.
  cbv zeta.
  destruct (@reset_semantics nat unit 2 true
              {| collection :=
                   {| find := fun _ : option unit => [10; 20; 30] |};
                 _query := None; _cursor := Some [];
                 _hasMoreChildren := false; _batchSize := 8 |}
              (or_introl eq_refl)) as (H1 & _ & _ & H2 & _).
  split; [exact H1|exact H2].
Defined.

End PagingExamples.

(** ** The editor manager *)
Module EditorFacts.
Import Js Editor.

Section Objects.

Context {V : Type}.

Lemma obj_get_set_same (key : string) (v : V) (o : list (string * V)) :
  obj_get key (obj_set key v o) = Some v.
Proof.
  induction o as [|[k v'] o IH]; cbn.
  - now rewrite String.eqb_refl.
  - destruct (String.eqb k key) eqn:E; cbn; rewrite E; [reflexivity|exact IH].
Qed.

Lemma obj_get_set_other (key key' : string) (v : V) (o : list (string * V)) :
  key <> key' -> obj_get key' (obj_set key v o) = obj_get key' o.
Proof.
  intros Hne. induction o as [|[k v'] o IH]; cbn.
  - destruct (String.eqb key key') eqn:E; [|reflexivity].
    apply String.eqb_eq in E. contradiction.
  - destruct (String.eqb k key) eqn:E; cbn.
    + apply String.eqb_eq in E. subst k.
      destruct (String.eqb key key') eqn:E'; [|reflexivity].
      apply String.eqb_eq in E'. contradiction.
    + now rewrite IH.
Qed.

End Objects.

Section WithPlatform.

Context `{Platform} `{!NodeEditors}.

(** *** The flag [ignoreSave] *)

Lemma keeps_ret A (a : A) : keeps_flag (ret a).
Proof. intros w Hw. exact Hw. Qed.

Lemma keeps_throw A (e : Exn) : keeps_flag (throw (A:=A) e).
Proof. intros w Hw. exact Hw. Qed.

Lemma keeps_read A (f : World -> A) : keeps_flag (read f).
Proof. intros w Hw. exact Hw. Qed.

Lemma keeps_modify (f : World -> World) :
  (forall w, ignoreSave (f w) = ignoreSave w) -> keeps_flag (modify f).
Proof. intros Hf w Hw. cbn. now rewrite Hf. Qed.

Lemma keeps_bind A B (m : M A) (k : A -> M B) :
  keeps_flag m -> (forall a, keeps_flag (k a)) -> keeps_flag (mbind m k).
Proof.
  intros Hm Hk w Hw. unfold mbind. specialize (Hm w Hw).
  destruct (m w) as [[a|e] w']; cbn in *; [now apply Hk|exact Hm].
Qed.

Lemma finally_resets A (m : M A) w :
  ignoreSave (snd (try_finally m (set_ignoreSave false) w)) = false.
Proof. unfold try_finally. now destruct (m w). Qed.

Lemma keeps_finally A (m : M A) :
  keeps_flag (try_finally m (set_ignoreSave false)).
Proof. intros w _. apply finally_resets. Qed.

Create HintDb flag discriminated.

Ltac keeps_step :=
  first
    [ apply keeps_ret
    | apply keeps_throw
    | apply keeps_read
    | apply keeps_finally
    | apply keeps_modify; intros ?; reflexivity
    | apply keeps_bind; [|intros ?]
    | solve [auto with flag]
    | match goal with
      | |- keeps_flag (match ?x with _ => _ end) => destruct x
      | |- keeps_flag (let '(_, _) := ?x in _) => destruct x
      end ].

Ltac keeps := repeat keeps_step.

Lemma keeps_ensureFile path : keeps_flag (ensureFile path).
Proof.
  apply keeps_modify. intros w.
  now destruct (obj_get path (documents w)).
Qed.

Lemma keeps_openTextDocument path : keeps_flag (openTextDocument path).
Proof.
  intros w Hw. unfold openTextDocument.
  now destruct (obj_get path (documents w)).
Qed.

Lemma keeps_showTextDocument document :
  keeps_flag (showTextDocument document).
Proof. intros w Hw. exact Hw. Qed.

Lemma keeps_writeToEditor host textEditor data :
  keeps_flag (writeToEditor host textEditor data).
Proof. unfold writeToEditor. keeps. Qed.

Lemma keeps_call_getData editor : keeps_flag (call_getData editor).
Proof. intros w Hw. exact Hw. Qed.

Lemma keeps_call_update editor data : keeps_flag (call_update editor data).
Proof.
  intros w Hw. unfold call_update.
  now destruct (update editor data (remote w)).
Qed.

Hint Resolve keeps_ensureFile keeps_openTextDocument keeps_showTextDocument
     keeps_writeToEditor keeps_call_getData keeps_call_update : flag.

(** Once the buffer is written, [updateEditor] ends with the flag
    clear, whatever it was before and whatever the save does. *)
Lemma updateEditor_resets host data path w :
  editOutcome host path = None ->
  ignoreSave (snd (updateEditor host data (Some path) w)) = false.
Proof.
  intros Hedit. unfold updateEditor, writeToEditor. rewrite Hedit.
  unfold mbind at 1. cbn [modify].
  unfold mbind at 1. cbn [modify].
  apply finally_resets.
Qed.

Lemma keeps_updateEditor host data textEditor :
  keeps_flag (updateEditor host data textEditor).
Proof.
  intros w Hw. destruct textEditor as [path|]; [|exact Hw].
  destruct (editOutcome host path) eqn:Hedit.
  - unfold updateEditor, writeToEditor. rewrite Hedit. exact Hw.
  - now apply updateEditor_resets.
Qed.

Hint Resolve keeps_updateEditor : flag.

Lemma keeps_persistLabels : keeps_flag persistLabels.
Proof.
  intros w Hw. unfold persistLabels.
  destruct (forEach_labels _ _) as [labels [e|]];
    destruct (globalState w); exact Hw.
Qed.

Hint Resolve keeps_persistLabels : flag.

Lemma keeps_showDocument host editor fileName :
  keeps_flag (showDocument host editor fileName).
Proof. unfold showDocument. keeps. Qed.

Lemma keeps_updateToCloud host editor doc :
  keeps_flag (updateToCloud host editor doc).
Proof. unfold updateToCloud. keeps. Qed.

Lemma keeps_loadPersistedEditor documentUri tree :
  keeps_flag (loadPersistedEditor documentUri tree).
Proof. unfold loadPersistedEditor. keeps. Qed.

Hint Resolve keeps_updateToCloud keeps_loadPersistedEditor : flag.

Lemma keeps_resolveFilePath fsPath tree :
  keeps_flag (resolveFilePath fsPath tree).
Proof. unfold resolveFilePath. keeps. Qed.

Hint Resolve keeps_resolveFilePath : flag.

Lemma keeps_updateMatchingNode host documentUri tree :
  keeps_flag (updateMatchingNode host documentUri tree).
Proof. unfold updateMatchingNode. keeps. Qed.

Lemma keeps_onDidSaveTextDocument host doc tree :
  keeps_flag (onDidSaveTextDocument host doc tree).
Proof. unfold onDidSaveTextDocument. keeps. Qed.

Hint Resolve keeps_showDocument keeps_updateMatchingNode
     keeps_onDidSaveTextDocument : flag.

(** Between calls the flag is clear. *)
Lemma reachable_flag w : reachable w -> ignoreSave w = false.
Proof.
  induction 1 as [w|host editor fileName w _ IH|host uri tree w _ IH
                  |host doc tree w _ IH|host data ed w _ IH
                  |w w' _ IH _ Hflag].
  - reflexivity.
  - now apply keeps_showDocument.
  - now apply keeps_updateMatchingNode.
  - now apply keeps_onDidSaveTextDocument.
  - now apply keeps_updateEditor.
  - now rewrite Hflag.
Qed.

(** C2.  After a call of [updateEditor] the flag [ignoreSave] is false:
    in every state the manager can be in, and in any state at all once
    the buffer has been written, whatever the save does, an exception
    included. *)
Theorem suppress_flag_safety host data textEditor w :
  reachable w \/
  (exists path, textEditor = Some path /\ editOutcome host path = None) ->
  ignoreSave (snd (updateEditor host data textEditor w)) = false.
Proof.
  intros [Hreach | [path [-> Hedit]]].
  - apply keeps_updateEditor. now apply reachable_flag.
  - now apply updateEditor_resets.
Qed.

Ltac run :=
  unfold mbind, read, ret, throw, modify;
  cbn -[findPath truthy fileMap_at persistedPath updateToCloud updateEditor
        loadPersistedEditor openTextDocument obj_get obj_set].

(** C4.  When the text of the saved buffer does not parse, the upload
    is rejected with the [SyntaxError] of [JSON.parse] and changes
    nothing: [update] is not called on the entity, the remote store and
    the buffers are as before.  The same holds of a save of a bound
    buffer: it is rejected, with that error once the user lets the
    upload go on, and no [update] call is made. *)
Theorem malformed_upload host editor doc tree w :
  JSON_parse (getText doc) = None ->
  updateToCloud host (Some editor) doc w = (Rejected SyntaxError, w) /\
  (ignoreSave w = false ->
   truthy (findPath (fsPath doc) (fileMap w)) = true ->
   fileMap_at w (findPath (fsPath doc) (fileMap w)) = Some editor ->
   let r := onDidSaveTextDocument host doc tree w in
   (fst r = Rejected SyntaxError \/ fst r = Rejected UserCancelledError) /\
   (showSavePrompt w = Some false \/
    saveWarningAnswer host = Some upload \/
    saveWarningAnswer host = Some uploadDontWarn ->
    fst r = Rejected SyntaxError) /\
   updateCalls (snd r) = updateCalls w /\
   remote (snd r) = remote w /\
   documents (snd r) = documents w).
Proof.
  intros Hparse.
  assert (Hup : forall w', updateToCloud host (Some editor) doc w' =
                           (Rejected SyntaxError, w')).
  { intros w'. unfold updateToCloud. now rewrite Hparse. }
  split; [apply Hup|].
  intros Hflag Hbound Hed r. subst r.
  unfold onDidSaveTextDocument, resolveFilePath. run.
  rewrite Hbound. run. rewrite Hflag, Hbound. run.
  change (fileMap_at (set_suppressTelemetry false
                        (set_suppressTelemetry true w)))
    with (fileMap_at w).
  rewrite Hed.
  destruct (showSavePrompt w) as [[|]|] eqn:Hprompt;
    destruct (saveWarningAnswer host) as [[| | |]|] eqn:Hanswer;
    rewrite ?Hup; cbn;
    repeat split; auto;
    intros [Hc|[Hc|Hc]]; congruence.
Qed.




(** C8 (amended).  When the tree cannot find the entity a persisted
    entry names, binding recovery is rejected with the entity-not-found
    error and changes nothing: no binding is added in memory, and the
    persisted table still holds the entry for the path.
    [updateMatchingNode] on a path with no binding in memory is
    rejected in the same way. *)
Theorem stale_binding_kept
        host documentUri tree w persistedEditors editorFilePath entityId :
  globalState w = Some persistedEditors ->
  findPath documentUri persistedEditors = Some editorFilePath ->
  editorFilePath <> EmptyString ->
  obj_get editorFilePath persistedEditors = Some entityId ->
  findNode tree entityId = None ->
  loadPersistedEditor documentUri (Some tree) w =
    (Rejected (Error entityNotFound), w) /\
  persistedPath (snd (loadPersistedEditor documentUri (Some tree) w))
                documentUri = Some editorFilePath /\
  fileMap (snd (loadPersistedEditor documentUri (Some tree) w)) =
    fileMap w /\
  (truthy (findPath documentUri (fileMap w)) = false ->
   updateMatchingNode host documentUri (Some tree) w =
     (Rejected (Error entityNotFound), w)).
Proof.
  intros Hstate Hfind Hne Hid Hnode.
  assert (Hload : loadPersistedEditor documentUri (Some tree) w =
                  (Rejected (Error entityNotFound), w)).
  { unfold loadPersistedEditor. run. rewrite Hstate, Hfind.
    assert (Ht : truthy (Some editorFilePath) = true).
    { unfold truthy. apply negb_true_iff.
      destruct (String.eqb editorFilePath EmptyString) eqn:E;
        [|reflexivity].
      apply String.eqb_eq in E. contradiction. }
    rewrite Ht. cbn [propertyName]. rewrite Hid. cbn [propertyName].
    rewrite Hnode. reflexivity. }
  rewrite Hload. cbn [snd]. repeat split.
  - unfold persistedPath. now rewrite Hstate.
  - intros Hunbound. unfold updateMatchingNode, resolveFilePath. run.
    rewrite Hunbound, Hload. reflexivity.
Qed.

Lemma loadPersistedEditor_none documentUri tree w :
  persistedPath w documentUri = None ->
  loadPersistedEditor documentUri tree w = (Fulfilled None, w).
Proof.
  unfold persistedPath, loadPersistedEditor. run.
  destruct (globalState w) as [persistedEditors|]; [|reflexivity].
  intros ->. reflexivity.
Qed.

(** C10.  On a path that has no binding in memory and no persisted
    entry (and with no property named [undefined] in the table),
    [updateMatchingNode] goes on with an undefined editor: it is
    rejected, with the [TypeError] of the call of [update] on
    [undefined] whenever the document can be opened, and it changes
    nothing.  [onDidSaveTextDocument] on the same path is fulfilled
    without doing anything. *)
Theorem unbound_update host documentUri tree w :
  findPath documentUri (fileMap w) = None ->
  persistedPath w documentUri = None ->
  fileMap_at w None = None ->
  let r := updateMatchingNode host documentUri tree w in
  snd r = w /\
  (exists e, fst r = Rejected e) /\
  (obj_get documentUri (documents w) <> None ->
   fst r = Rejected (TypeError "update")) /\
  (forall doc, fsPath doc = documentUri ->
     onDidSaveTextDocument host doc tree w =
       (Fulfilled tt, set_suppressTelemetry true w)).
Proof.
  intros Hmem Hpers Hundef r. subst r.
  assert (Hsave : forall doc, fsPath doc = documentUri ->
            onDidSaveTextDocument host doc tree w =
            (Fulfilled tt, set_suppressTelemetry true w)).
  { intros doc <-. unfold onDidSaveTextDocument, resolveFilePath. run.
    rewrite Hmem. cbn [truthy].
    rewrite (loadPersistedEditor_none
               (fsPath doc) tree (set_suppressTelemetry true w) Hpers).
    cbn [truthy]. now rewrite andb_false_r. }
  unfold updateMatchingNode, resolveFilePath. run.
  rewrite Hmem. cbn [truthy].
  rewrite (loadPersistedEditor_none _ tree w Hpers).
  unfold openTextDocument.
  destruct (obj_get documentUri (documents w)) as [b|] eqn:Hdoc.
  - rewrite Hundef. cbn. repeat split; eauto.
  - cbn. repeat split; eauto. congruence.
Qed.

(** *** What the buffers hold *)

Lemma mbind_fulfilled A B (m : M A) (k : A -> M B) w b w' :
  mbind m k w = (Fulfilled b, w') ->
  exists a w1, m w = (Fulfilled a, w1) /\ k a w1 = (Fulfilled b, w').
Proof.
  unfold mbind. destruct (m w) as [[a|e] w1]; [eauto|discriminate].
Qed.

(** A rewrite that is fulfilled leaves the serialization of the data in
    the buffer of the editor it was given. *)
Lemma updateEditor_buffer host data path w w' :
  updateEditor host data (Some path) w = (Fulfilled tt, w') ->
  exists b, obj_get path (documents w') = Some b /\
            text b = JSON_stringify data.
Proof.
  unfold updateEditor, writeToEditor, save, try_finally.
  destruct (editOutcome host path); [discriminate|].
  run. destruct (saveOutcome host path) as [[|]|e]; cbn;
    intros [= <-]; cbn -[obj_get obj_set].
  - rewrite obj_get_set_same. cbn -[obj_get obj_set].
    rewrite obj_get_set_same. eauto.
  - rewrite obj_get_set_same. eauto.
Qed.

Lemma updateEditor_undefined host data w :
  updateEditor host data None w = (Rejected (TypeError "edit"), w).
Proof. reflexivity. Qed.

(** The first half of the round trip: when [showDocument] is
    fulfilled, the buffer at the local path holds the serialization of
    what [getData] answered. *)
Lemma showDocument_buffer host editor fileName w w' :
  showDocument host editor fileName w = (Fulfilled tt, w') ->
  exists data b,
    getData editor (remote w) = Fulfilled data /\
    obj_get (localDocPathOf fileName) (documents w') = Some b /\
    text b = JSON_stringify data.
Proof.
  unfold showDocument. intros Hshow.
  apply mbind_fulfilled in Hshow as (u2 & w1 & Hensure & Hshow).
  apply mbind_fulfilled in Hshow as (document & w2 & Hopen & Hshow).
  apply mbind_fulfilled in Hshow as (u3 & w3 & Hdirty & Hshow).
  apply mbind_fulfilled in Hshow as (u4 & w4 & Hbind & Hshow).
  apply mbind_fulfilled in Hshow as (u5 & w5 & Hpersist & Hshow).
  apply mbind_fulfilled in Hshow as (textEditor & w6 & Htext & Hshow).
  apply mbind_fulfilled in Hshow as (data & w7 & Hdata & Hshow).
  repeat match goal with u : unit |- _ => destruct u end.
  assert (Hr1 : remote w1 = remote w).
  { unfold ensureFile, modify in Hensure.
    injection Hensure as Hw1. rewrite <- Hw1.
    now destruct (obj_get _ (documents w)). }
  assert (Hdoc : fsPath document = localDocPathOf fileName /\ w2 = w1).
  { unfold openTextDocument in Hopen.
    destruct (obj_get _ (documents w1)); [|discriminate].
    injection Hopen as Hd Hw2. rewrite <- Hd. now split. }
  destruct Hdoc as [Hpath Hw2].
  assert (Hr3 : remote w3 = remote w2).
  { destruct (isDirty document);
      [|injection Hdirty as Hw3; now rewrite Hw3].
    destruct (overwriteAnswer host) as [[| | |]|];
      try discriminate. injection Hdirty as Hw3. now rewrite Hw3. }
  assert (Hr4 : remote w4 = remote w3)
    by (unfold modify in Hbind; injection Hbind as Hw4; now rewrite <- Hw4).
  assert (Hr5 : remote w5 = remote w4).
  { unfold persistLabels in Hpersist.
    destruct (forEach_labels _ _) as [labels [e|]];
      [destruct (globalState w4); discriminate|].
    injection Hpersist as Hw5. now rewrite <- Hw5. }
  unfold showTextDocument in Htext. injection Htext as Hed Hw6.
  unfold call_getData in Hdata. injection Hdata as Hdata Hw7.
  rewrite <- Hw6 in Hdata. cbn [remote set_activeTextEditor] in Hdata.
  rewrite Hr5, Hr4, Hr3, Hw2, Hr1 in Hdata.
  rewrite <- Hed, Hpath in Hshow.
  apply updateEditor_buffer in Hshow as (b & Hb & Htxt). eauto.
Qed.

(** The second half, as the code has it: when an upload is fulfilled,
    the serialization of what [update] answered is in the buffer of
    the active text editor. *)
Lemma updateToCloud_buffer host editor doc data w w' :
  JSON_parse (getText doc) = Some data ->
  updateToCloud host (Some editor) doc w = (Fulfilled tt, w') ->
  exists updatedDoc path b,
    fst (update editor data (remote w)) = Fulfilled updatedDoc /\
    activeTextEditor w = Some path /\
    obj_get path (documents w') = Some b /\
    text b = JSON_stringify updatedDoc.
Proof.
  intros Hparse. unfold updateToCloud. rewrite Hparse. intros Hup.
  apply mbind_fulfilled in Hup as (updatedDoc & w1 & Hcall & Hup).
  apply mbind_fulfilled in Hup as (u6 & w2 & Hlog & Hup).
  apply mbind_fulfilled in Hup as (active & w3 & Hactive & Hup).
  repeat match goal with u : unit |- _ => destruct u end.
  unfold call_update in Hcall.
  destruct (update editor data (remote w)) as [r remote'] eqn:Hupdate.
  injection Hcall as Hr Hw1.
  unfold modify in Hlog. injection Hlog as Hw2.
  unfold read in Hactive. injection Hactive as Hact Hw3.
  subst r w1 w2 w3 active.
  cbn [activeTextEditor set_output set_remote set_updateCalls] in Hup.
  destruct (activeTextEditor w) as [path|];
    [|rewrite updateEditor_undefined in Hup; discriminate].
  apply updateEditor_buffer in Hup as (b & Hb & Htxt).
  exists updatedDoc, path, b. cbn [fst]. repeat split; assumption.
Qed.

(** The second half through the save notification, for a buffer that
    is bound and is the one the active editor shows. *)
Lemma save_refreshes_active_buffer host doc tree editor data w w' :
  ignoreSave w = false ->
  truthy (findPath (fsPath doc) (fileMap w)) = true ->
  fileMap_at w (findPath (fsPath doc) (fileMap w)) = Some editor ->
  JSON_parse (getText doc) = Some data ->
  activeTextEditor w = Some (fsPath doc) ->
  onDidSaveTextDocument host doc tree w = (Fulfilled tt, w') ->
  exists updatedDoc b,
    fst (update editor data (remote w)) = Fulfilled updatedDoc /\
    obj_get (fsPath doc) (documents w') = Some b /\
    text b = JSON_stringify updatedDoc.
Proof.
  intros Hflag Hbound Hed Hparse Hactive.
  unfold onDidSaveTextDocument, resolveFilePath. run.
  rewrite Hbound. run. rewrite Hflag, Hbound. run.
  change (fileMap_at (set_suppressTelemetry false
                        (set_suppressTelemetry true w)))
    with (fileMap_at w).
  rewrite Hed.
  destruct (showSavePrompt w) as [[|]|];
    destruct (saveWarningAnswer host) as [[| | |]|];
    try discriminate;
    intros Hup;
    apply (updateToCloud_buffer _ _ _ _ Hparse) in Hup
      as (updatedDoc & path & b & Hupdate & Hpath & Hb & Htext);
    cbn [activeTextEditor remote set_suppressTelemetry set_showSavePrompt]
      in Hpath, Hupdate;
    rewrite Hactive in Hpath; injection Hpath as <-; eauto.
Qed.

End WithPlatform.

End EditorFacts.

(** ** Commands of a collection *)
Module CommandsFacts.
Import Js Commands.

Section WithDriver.

Local Open Scope string_scope.

Context `{Runtime}.

Variable this : Collection.

Lemma recognized_cases name :
  recognized name = true ->
  name = "drop" \/ name = "insertMany" \/ name = "insert" \/
  name = "insertOne" \/ name = "deleteOne" \/ name = "deleteMany" \/
  name = "remove" \/ name = "count" \/ name = "findOne".
Proof.
  unfold recognized. cbn [existsb]. rewrite !orb_true_iff, !String.eqb_eq.
  intuition discriminate.
Qed.

Lemma parsedArgs_raised random a message :
  a <> EmptyString ->
  runInNewContext (("parse" ++ decimal random) ++ "=" ++ a)
    = Raised message ->
  parsedArgs random (Some a) = Throw (ThrownMessage message).
Proof.
  intros Hne Hvm. unfold parsedArgs, parseJSContent.
  destruct (a =? EmptyString) eqn:E.
  - apply String.eqb_eq in E. contradiction.
  - now rewrite Hvm.
Qed.

Ltac dispatch_on :=
  unfold executeCommand, dispatch, driverCallOf, asyncCommand in *;
  cbn -[parsedArgs Commands.insertMany Commands.insert Commands.insertOne
        Commands.deleteOne Commands.deleteMany Commands.remove
        Commands.count Commands.findOne Commands.drop] in *.

Ltac driver_call :=
  unfold Commands.insertMany, Commands.insert, Commands.insertOne,
    Commands.deleteOne, Commands.deleteMany, Commands.remove,
    Commands.count, Commands.findOne, Commands.drop, settling,
    answered, reportProgress in *;
  match goal with
  | Hcall : context [?op this ?a] |- _ =>
      destruct (op this a) as [[?|?]|?]; cbn in *; congruence
  | Hcall : context [coll_drop this] |- _ =>
      destruct (coll_drop this) as [[?|?]|?]; cbn in *; congruence
  end.

(** C7 (amended).  For a recognized command, [executeCommand] does not
    throw.  An argument string that fails to evaluate gives a promise
    fulfilled with the error message, and so does an exception thrown
    by the driver call of a method that is not [async]; but a rejection
    by the driver is handed on as a rejection, and so is an exception
    thrown by the driver inside an [async] method. *)
Theorem dispatch_failures random name args :
  recognized name = true ->
  (exists r, executeCommand this random name args = Return r) /\
  (forall a message,
     name <> "drop" -> args = Some a -> a <> EmptyString ->
     runInNewContext (("parse" ++ decimal random) ++ "=" ++ a)
       = Raised message ->
     executeCommand this random name args =
       Return (Some (Fulfilled (Caught (ThrownMessage message))))) /\
  (forall a e,
     (name <> "drop" -> parsedArgs random args = Return a) ->
     driverCallOf this name a = Throw e ->
     executeCommand this random name args =
       Return (Some (if asyncCommand name then Rejected e
                     else Fulfilled (Caught e)))) /\
  (forall a e,
     (name <> "drop" -> parsedArgs random args = Return a) ->
     driverCallOf this name a = Return (Rejected e) ->
     executeCommand this random name args = Return (Some (Rejected e))).
Proof.
  intros Hname. split; [|split; [|split]].
  - unfold executeCommand, try_catch.
    destruct (dispatch this random name args); eauto.
  - intros a message Hdrop -> Hne Hvm.
    pose proof (parsedArgs_raised random Hne Hvm) as Hparse.
    apply recognized_cases in Hname.
    repeat (destruct Hname as [->|Hname]; [|]); try subst name;
      try congruence; dispatch_on; now rewrite Hparse.
  - intros a e Hparse Hcall.
    apply recognized_cases in Hname.
    repeat (destruct Hname as [->|Hname]; [|]); try subst name;
      dispatch_on;
      try (rewrite Hparse by discriminate; cbn [bind]);
      driver_call.
  - intros a e Hparse Hcall.
    apply recognized_cases in Hname.
    repeat (destruct Hname as [->|Hname]; [|]); try subst name;
      dispatch_on;
      try (rewrite Hparse by discriminate; cbn [bind]);
      driver_call.
Qed.

(** C9.  Whenever [update] is fulfilled, it is with the very array it
    was given, whatever [bulkWrite] answered; and it is fulfilled as
    soon as the identifiers are well formed and [bulkWrite] is. *)
Theorem update_returns_argument documents output :
  (forall r, fst (update this documents output) = Fulfilled r ->
             r = documents) /\
  (forall operations result,
     array_map updateOperation documents = Return operations ->
     coll_bulkWrite this operations = Return (Fulfilled result) ->
     fst (update this documents output) = Fulfilled documents).
Proof.
  unfold update. split.
  - intros r.
    destruct (array_map updateOperation documents) as [operations|e];
      [|discriminate].
    destruct (await_call (coll_bulkWrite this operations)) as [result|e];
      cbn; congruence.
  - intros operations result -> ->. reflexivity.
Qed.

End WithDriver.

End CommandsFacts.

(** ** Commands of a collection: instances *)
Module CommandsExamples.
Import Js Commands CommandsScenario CommandsFacts.

Local Open Scope string_scope.

#[local] Existing Instance textRuntime.

(** C7, as worded, fails on a collection whose [drop] the server
    rejects: the promise of the command [drop] is rejected. *)
Lemma drop_rejection_surfaces :
  executeCommand dropped 42 "drop" None =
    Return (Some (Rejected (ThrownError "ns not found"))) /\
  ~ never_rejects dropped.
Proof.
  split; [reflexivity|].
  intros Hnever.
  destruct (Hnever 42 "drop" None
                   (Rejected (ThrownError "ns not found"))
                   eq_refl eq_refl) as [answer Hanswer].
  discriminate Hanswer.
Qed.

(** [dispatch_failures] on [insertOne] with an argument that breaks off:
    the promise is fulfilled with the message of the evaluator. *)
Lemma dispatch_failures_witness :
  recognized "insertOne" = true /\
  executeCommand dropped 42 "insertOne" (Some "{ total: ") =
    Return (Some (Fulfilled
                    (Caught (ThrownMessage "Unexpected end of input")))).
Proof.
  split; [reflexivity|].
  destruct (@dispatch_failures textRuntime dropped 42 "insertOne"
              (Some "{ total: ") eq_refl) as (_ & Hparse & _).
  apply (Hparse "{ total: " "Unexpected end of input");
    [discriminate|reflexivity|discriminate|reflexivity].
Defined.

(** [update_returns_argument] on one document. *)
Lemma update_returns_argument_witness :
  fst (update dropped [order] []) = Fulfilled [order].
Proof.
  destruct (@update_returns_argument textRuntime dropped [order] [])
    as (_ & Hfulfilled).
  eapply Hfulfilled; reflexivity.
Defined.

End CommandsExamples.

(** ** The editor manager: instances *)
Module EditorExamples.
Import Js Editor EditorScenario EditorFacts.

Local Open Scope string_scope.

#[local] Existing Instance numbers.
#[local] Existing Instance itemEditors.

(** [suppress_flag_safety] on a host whose saves fail. *)
Lemma suppress_flag_safety_witness :
  reachable start /\
  fst (updateEditor diskFull 7 (Some itemPath) start) =
    Rejected (Error "ENOSPC") /\
  ignoreSave (snd (updateEditor diskFull 7 (Some itemPath) start)) = false.
Proof.
  assert (Hreach : reachable start) by exact (reach_new start).
  split; [exact Hreach|]. split; [reflexivity|].
  apply (@suppress_flag_safety numbers itemEditors diskFull 7
           (Some itemPath) start).
  left. exact Hreach.
Defined.

(** [malformed_upload] on a buffer that holds no number. *)
Lemma malformed_upload_witness :
  let doc := {| fsPath := itemPath; getText := "eight"; isDirty := false |} in
  JSON_parse (getText doc) = None /\
  updateToCloud agreeing (Some item) doc shown = (Rejected SyntaxError, shown).
Proof.
  cbv zeta. split; [reflexivity|].
  apply (@malformed_upload numbers itemEditors agreeing item
           {| fsPath := itemPath; getText := "eight"; isDirty := false |}
           None shown).
  reflexivity.
Defined.



(** C8, as worded, fails: after the failed recovery the persisted table
    still holds the entry for the path. *)
Lemma stale_binding_still_persisted :
  let r := loadPersistedEditor itemPath (Some emptyTree) restarted in
  fst r = Rejected (Error entityNotFound) /\
  persistedPath (snd r) itemPath = Some itemPath /\
  globalState (snd r) = Some [(itemPath, "db/coll/item")].
Proof. cbv zeta. repeat split; reflexivity. Qed.

(** [stale_binding_kept] on the same world. *)
Lemma stale_binding_kept_witness :
  findNode emptyTree "db/coll/item" = None /\
  updateMatchingNode agreeing itemPath (Some emptyTree) restarted =
    (Rejected (Error entityNotFound), restarted).
Proof.
  split; [reflexivity|].
  apply (@stale_binding_kept numbers itemEditors agreeing itemPath emptyTree
           restarted [(itemPath, "db/coll/item")] itemPath "db/coll/item");
    try reflexivity.
  discriminate.
Defined.

(** [unbound_update] on the notes, which are bound to nothing. *)
Lemma unbound_update_witness :
  findPath notes (fileMap shown) = None /\
  persistedPath shown notes = None /\
  fst (updateMatchingNode agreeing notes None shown) =
    Rejected (TypeError "update").
Proof.
  split; [reflexivity|]. split; [reflexivity|].
  apply (@unbound_update numbers itemEditors agreeing notes None shown);
    try reflexivity.
  discriminate.
Defined.

(** C3 on a save that happens while another editor is active.  The
    item is shown: its buffer holds 7.  The user types 8, goes back to
    the notes, and the buffer of the item is saved.  [update] is called
    with 8 and answers 80; the buffer of the item still holds 8, and the
    notes have been overwritten with 80. *)
Theorem round_trip_other_editor_active :
  obj_get itemPath (documents shown) =
    Some {| text := "7"; dirty := false |} /\
  let r := onDidSaveTextDocument agreeing savedItem None edited in
  fst r = Fulfilled tt /\
  updateCalls (snd r) = [("db/coll/item", 8)] /\
  fst (update item 8 (remote edited)) = Fulfilled 80 /\
  obj_get itemPath (documents (snd r)) =
    Some {| text := "8"; dirty := false |} /\
  obj_get notes (documents (snd r)) =
    Some {| text := "80"; dirty := false |}.
Proof. cbv zeta. repeat split; reflexivity. Qed.

End EditorExamples.

(** * Further properties *)

(** ** Paging *)
Module PagingMore.
Import Paging PagingFacts.

Section WithCollection.

Variable IMongoDocument : Type.
Variable Query : Type.
Variable DefaultBatchSize : nat.

Lemma load_any clearCache
      (this : MongoCollectionTreeItem IMongoDocument Query) :
  loadMoreChildren DefaultBatchSize clearCache this =
  loadMoreChildren DefaultBatchSize false
    (opened (collection this) (_query this) (pending clearCache this)
            (_hasMoreChildren this)
            (batchSizeUsed DefaultBatchSize clearCache this)).
Proof.
  unfold loadMoreChildren, opened, pending, batchSizeUsed.
  cbn [_cursor _batchSize collection _query _hasMoreChildren].
  destruct clearCache, (_cursor this); reflexivity.
Qed.

Lemma load_batchSize clearCache
      (this : MongoCollectionTreeItem IMongoDocument Query) :
  _batchSize (snd (loadMoreChildren DefaultBatchSize clearCache this)) =
  batchSizeUsed DefaultBatchSize clearCache this * 2.
Proof. rewrite load_any, load_opened. reflexivity. Qed.


Lemma loadMany_batchSize flags :
  forall (this : MongoCollectionTreeItem IMongoDocument Query) n,
    _batchSize this = DefaultBatchSize * 2 ^ n ->
    (_cursor this = None -> n = 0) ->
    _batchSize (snd (loadMany DefaultBatchSize flags this)) =
    DefaultBatchSize *
    2 ^ fold_left (fun n (clearCache : bool) => if clearCache then 1 else S n)
                  flags n.
Proof.
  induction flags as [|c flags IH]; intros this n Hsize Hnone.
  - exact Hsize.
  - cbn [loadMany fold_left].
    pose proof (load_batchSize c this) as Hnext.
    destruct (loadMoreChildren DefaultBatchSize c this) as [batch this']
      eqn:Hload.
    cbn [snd] in Hnext.
    assert (Hcur : _cursor this' <> None).
    { unfold loadMoreChildren in Hload.
      destruct (match c, _cursor this with
                | false, Some c0 => (c0, _batchSize this)
                | _, _ => (find (collection this) (_query this),
                           DefaultBatchSize)
                end) as [cur b].
      destruct (fetch_loop b cur (_hasMoreChildren this) [])
        as [[documents cur'] hasMore].
      injection Hload as _ <-. discriminate. }
    specialize (IH this' (if c then 1 else S n)).
    destruct (loadMany DefaultBatchSize flags this') as [batches this''].
    cbn [snd] in *. apply IH; [|intros Hc; contradiction].
    rewrite Hnext. unfold batchSizeUsed.
    destruct c.
    + cbn. lia.
    + destruct (_cursor this).
      * rewrite Hsize, Nat.pow_succ_r'. lia.
      * rewrite (Hnone eq_refl). cbn. lia.
Qed.

(** X2.  Whatever the calls were, the size the next one will fetch with
    is the default doubled once for every call since the cursor was last
    opened, as long as that product is a finite JavaScript number: the
    calls since the last reset have not taken it to [2^1024]. *)
Theorem batchSize_doubles flags coll (query : option Query) :
  isFinite DefaultBatchSize (sinceReset flags) = true ->
  _batchSize
    (snd (loadMany DefaultBatchSize flags
                   (newTreeItem (IMongoDocument:=IMongoDocument)
                                DefaultBatchSize coll query))) =
  DefaultBatchSize * 2 ^ sinceReset flags.
Proof.
  intros _. unfold sinceReset. apply loadMany_batchSize.
  - cbn. lia.
  - reflexivity.
Qed.

Lemma load_settled clearCache
      (this : MongoCollectionTreeItem IMongoDocument Query) :
  0 < DefaultBatchSize -> settled this ->
  settled (snd (loadMoreChildren DefaultBatchSize clearCache this)).
Proof.
  intros HB [Hsize _]. rewrite load_any, load_opened. cbn [snd].
  assert (Hb : 0 < batchSizeUsed DefaultBatchSize clearCache this).
  { unfold batchSizeUsed. destruct clearCache, (_cursor this); assumption. }
  unfold settled, opened. cbn [_batchSize _hasMoreChildren _cursor].
  split; [lia|].
  destruct (batchSizeUsed DefaultBatchSize clearCache this) as [|b];
    [lia|].
  cbn [Nat.eqb]. intros Hshort. apply Nat.leb_gt in Hshort.
  f_equal. apply skipn_all2. lia.
Qed.

Lemma loadMany_settled flags :
  forall this : MongoCollectionTreeItem IMongoDocument Query,
    0 < DefaultBatchSize -> settled this ->
    settled (snd (loadMany DefaultBatchSize flags this)).
Proof.
  induction flags as [|c flags IH]; intros this HB Hthis; [exact Hthis|].
  cbn [loadMany].
  pose proof (load_settled c HB Hthis) as Hnext.
  destruct (loadMoreChildren DefaultBatchSize c this) as [batch this'].
  specialize (IH this' HB Hnext).
  destruct (loadMany DefaultBatchSize flags this') as [batches this''].
  exact IH.
Qed.

(** X3.  Exhaustion is stable: once [hasMoreChildren] answers false, after
    whatever calls, a further call without [clearCache] returns no
    document and leaves the answer false. *)
Theorem exhausted_stays_exhausted flags coll (query : option Query) :
  0 < DefaultBatchSize ->
  let this := snd (loadMany DefaultBatchSize flags
                     (newTreeItem (IMongoDocument:=IMongoDocument)
                                  DefaultBatchSize coll query)) in
  hasMoreChildren this = false ->
  let res := loadMoreChildren DefaultBatchSize false this in
  fst res = [] /\ hasMoreChildren (snd res) = false.
Proof.
  intros HB this Hfalse res.
  assert (Hset : settled this).
  { apply loadMany_settled; [exact HB|]. split; [exact HB|discriminate]. }
  destruct Hset as [Hsize Hcur]. specialize (Hcur Hfalse).
  subst res. unfold loadMoreChildren. rewrite Hcur.
  destruct (_batchSize this) as [|b]; [lia|]. split; reflexivity.
Qed.

End WithCollection.

End PagingMore.

(** ** Commands of a collection *)
Module CommandsMore.
Import Js Commands CommandsFacts.

Section WithDriver.

Local Open Scope string_scope.

Context `{Runtime}.

Variable this : Collection.

Lemma array_map_operations documents :
  forall operations,
    array_map updateOperation documents = Return operations ->
    length operations = length documents /\
    map update_ operations = map omit_id documents /\
    map (fun op => Return (filter_id op)) operations =
      map (fun d => ObjectID (_id d)) documents /\
    Forall (fun op => upsert op = false) operations.
Proof.
  induction documents as [|d documents IH]; intros operations.
  - intros [= <-]. repeat split. constructor.
  - cbn [array_map]. unfold updateOperation at 1.
    destruct (ObjectID (_id d)) as [oid|e] eqn:Hid; [|discriminate].
    cbn [bind].
    destruct (array_map updateOperation documents) as [ops|e];
      [|discriminate].
    intros [= <-]. destruct (IH ops eq_refl) as (Hlen & Hupd & Hflt & Hups).
    cbn [length map update_ filter_id]. rewrite Hlen, Hupd, Hflt, Hid.
    repeat split. constructor; [reflexivity|exact Hups].
Qed.

(** X4.  What [update] writes: when it is fulfilled, [bulkWrite] was given one
    operation for each document, in order, that replaces the document of
    that [_id] by the document without its [_id] and never inserts. *)
Theorem update_writes_each_document documents output r :
  fst (update this documents output) = Fulfilled r ->
  exists operations result,
    coll_bulkWrite this operations = Return (Fulfilled result) /\
    length operations = length documents /\
    map update_ operations = map omit_id documents /\
    map (fun op => Return (filter_id op)) operations =
      map (fun d => ObjectID (_id d)) documents /\
    Forall (fun op => upsert op = false) operations.
Proof.
  unfold update.
  destruct (array_map updateOperation documents) as [operations|e] eqn:Hops;
    [|discriminate].
  destruct (coll_bulkWrite this operations) as [[result|e]|e] eqn:Hwrite;
    cbn; try discriminate.
  intros _. exists operations, result.
  split; [exact Hwrite|]. now apply array_map_operations.
Qed.

Lemma array_map_throw before d after e :
  Forall (fun d' => exists oid, ObjectID (_id d') = Return oid) before ->
  ObjectID (_id d) = Throw e ->
  array_map updateOperation (before ++ d :: after) = Throw e.
Proof.
  intros Hbefore Hd. induction Hbefore as [|d' before [oid Hoid] _ IH].
  - cbn. unfold updateOperation. now rewrite Hd.
  - cbn [app array_map]. unfold updateOperation at 1.
    rewrite Hoid. cbn [bind]. now rewrite IH.
Qed.

(** X5.  The identifiers are checked before anything is written: when the
    [_id] of a document is ill formed, [update] is rejected with the
    error of the first such document, whatever the collection would
    answer, and nothing is printed. *)
Theorem update_ill_formed_id before d after e output :
  Forall (fun d' => exists oid, ObjectID (_id d') = Return oid) before ->
  ObjectID (_id d) = Throw e ->
  update this (before ++ d :: after) output = (Rejected e, output).
Proof.
  intros Hbefore Hd. unfold update.
  now rewrite (array_map_throw d after Hbefore Hd).
Qed.

(** X6.  A name that is no command gives [null], and the argument string is
    not evaluated. *)
Theorem unrecognized_command random name args :
  recognized name = false ->
  executeCommand this random name args = Return None.
Proof.
  unfold recognized. cbn [existsb]. rewrite !orb_false_iff.
  intros (H1 & H2 & H3 & H4 & H5 & H6 & H7 & H8 & H9 & _).
  unfold executeCommand, dispatch.
  now rewrite H1, H2, H3, H4, H5, H6, H7, H8, H9.
Qed.

Ltac name_is Hname :=
  apply String.eqb_eq in Hname; subst.

Ltac parse_failure :=
  match goal with
  | |- context [parsedArgs ?r ?a] =>
      destruct (parsedArgs r a) as [?|?] eqn:Hparsed;
      cbn [bind try_catch];
      [|intros [= <-]; repeat split; try discriminate; left; reflexivity]
  end.

Ltac call_failure :=
  unfold Commands.insertMany, Commands.insert, Commands.insertOne,
    Commands.deleteOne, Commands.deleteMany, Commands.remove,
    driverCallOf, settling, answered, reportProgress;
  cbn -[parsedArgs];
  match goal with
  | Hparsed : _ = Return ?p |- context [?op this ?p] =>
      destruct (op this p) as [[?|?]|?] eqn:Hcall;
      cbn; try discriminate;
      intros [= <-]; repeat split; try discriminate;
      right; split; [reflexivity|];
      exists p; split; [reflexivity|];
      rewrite Hcall; reflexivity
  end.

Ltac no_failure :=
  unfold Commands.count, Commands.findOne, answered, reportProgress;
  match goal with
  | Hparsed : _ = Return ?p |- context [?op this ?p] =>
      destruct (op this p) as [[?|?]|?]; cbn; discriminate
  end.

(** X7.  An answer that carries an error only comes from a failure before
    the promise was made: the argument string did not evaluate, or the
    driver call of a method that is not [async] threw.  The command
    [drop] never answers so. *)
Theorem caught_only_before_promise random name args e :
  executeCommand this random name args =
    Return (Some (Fulfilled (Caught e))) ->
  recognized name = true /\ name <> "drop" /\
  (parsedArgs random args = Throw e \/
   asyncCommand name = false /\
   exists a, parsedArgs random args = Return a /\
             driverCallOf this name a = Throw e).
Proof.
  unfold executeCommand, dispatch.
  destruct (name =? "drop") eqn:E1.
  { name_is E1. unfold Commands.drop, answered, reportProgress.
    destruct (coll_drop this) as [[?|?]|?]; cbn; discriminate. }
  destruct (name =? "insertMany") eqn:E2;
    [name_is E2; parse_failure; call_failure|].
  destruct (name =? "insert") eqn:E3;
    [name_is E3; parse_failure; call_failure|].
  destruct (name =? "insertOne") eqn:E4;
    [name_is E4; parse_failure; call_failure|].
  destruct (name =? "deleteOne") eqn:E5;
    [name_is E5; parse_failure; call_failure|].
  destruct (name =? "deleteMany") eqn:E6;
    [name_is E6; parse_failure; call_failure|].
  destruct (name =? "remove") eqn:E7;
    [name_is E7; parse_failure; call_failure|].
  destruct (name =? "count") eqn:E8;
    [name_is E8; parse_failure; no_failure|].
  destruct (name =? "findOne") eqn:E9;
    [name_is E9; parse_failure; no_failure|].
  discriminate.
Qed.

End WithDriver.

End CommandsMore.

(** ** The editor manager *)
Module EditorMore.
Import Js Editor EditorFacts.

Section Objects.

Context {V : Type}.

Lemma keys_set_present (key : string) (v : V) (o : list (string * V)) :
  In key (keys o) -> keys (obj_set key v o) = keys o.
Proof.
  unfold keys. induction o as [|[k v'] o IH]; cbn; [contradiction|].
  intros [-> | Hin].
  - now rewrite String.eqb_refl.
  - destruct (String.eqb k key); cbn; [reflexivity|]. now rewrite IH.
Qed.

Lemma keys_set_absent (key : string) (v : V) (o : list (string * V)) :
  ~ In key (keys o) -> keys (obj_set key v o) = keys o ++ [key].
Proof.
  unfold keys. induction o as [|[k v'] o IH]; cbn; [reflexivity|].
  intros Hnot. destruct (String.eqb k key) eqn:E.
  - apply String.eqb_eq in E. tauto.
  - cbn. rewrite IH by tauto. reflexivity.
Qed.

Lemma keys_set_incl (key : string) (v : V) (o : list (string * V)) :
  incl (keys o) (keys (obj_set key v o)).
Proof.
  destruct (in_dec string_dec key (keys o)) as [Hin|Hnot].
  - rewrite keys_set_present by assumption. apply incl_refl.
  - rewrite keys_set_absent by assumption. apply incl_appl, incl_refl.
Qed.

Lemma keys_set_NoDup (key : string) (v : V) (o : list (string * V)) :
  NoDup (keys o) -> NoDup (keys (obj_set key v o)).
Proof.
  intros Hnd. destruct (in_dec string_dec key (keys o)) as [Hin|Hnot].
  - now rewrite keys_set_present.
  - rewrite keys_set_absent by assumption.
    apply NoDup_app; [exact Hnd|repeat constructor; intros []|].
    intros k Hk [<-|[]]. contradiction.
Qed.

Lemma obj_get_absent (key : string) (o : list (string * V)) :
  ~ In key (keys o) -> obj_get key o = None.
Proof.
  unfold keys. induction o as [|[k v] o IH]; cbn; [reflexivity|].
  intros Hnot. destruct (String.eqb k key) eqn:E.
  - apply String.eqb_eq in E. tauto.
  - apply IH. tauto.
Qed.

Lemma in_obj_set_other (key key' : string) (v v' : V)
      (o : list (string * V)) :
  key <> key' -> In (key', v') o -> In (key', v') (obj_set key v o).
Proof.
  intros Hne. induction o as [|[k v0] o IH]; cbn; [contradiction|].
  intros [[= -> ->] | Hin].
  - destruct (String.eqb key' key) eqn:E.
    + apply String.eqb_eq in E. congruence.
    + now left.
  - destruct (String.eqb k key); [now right|right; now apply IH].
Qed.

End Objects.

Section WithPlatform.

Context `{Platform} `{!NodeEditors}.

(** *** Properties that the methods preserve *)

Section Preservation.

Variable P : World -> Prop.

Lemma preserves_ret A (a : A) : preserves P (ret a).
Proof. intros w Hw. exact Hw. Qed.

Lemma preserves_throw A (e : Exn) : preserves P (throw (A:=A) e).
Proof. intros w Hw. exact Hw. Qed.

Lemma preserves_read A (f : World -> A) : preserves P (read f).
Proof. intros w Hw. exact Hw. Qed.

Lemma preserves_modify (f : World -> World) :
  (forall w, P w -> P (f w)) -> preserves P (modify f).
Proof. intros Hf w Hw. now apply Hf. Qed.

Lemma preserves_bind A B (m : M A) (k : A -> M B) :
  preserves P m -> (forall a, preserves P (k a)) -> preserves P (mbind m k).
Proof.
  intros Hm Hk w Hw. unfold mbind. specialize (Hm w Hw).
  destruct (m w) as [[a|e] w']; cbn in *; [now apply Hk|exact Hm].
Qed.

Lemma preserves_finally A (m : M A) (cleanup : World -> World) :
  preserves P m -> (forall w, P w -> P (cleanup w)) ->
  preserves P (try_finally m cleanup).
Proof.
  intros Hm Hc w Hw. unfold try_finally. specialize (Hm w Hw).
  destruct (m w) as [r w']. now apply Hc.
Qed.

(** The property does not depend on the buffers, on the flag, on the
    remote store, or on what was logged. *)
Hypothesis P_documents : forall v w, P w -> P (set_documents v w).
Hypothesis P_ignoreSave : forall v w, P w -> P (set_ignoreSave v w).
Hypothesis P_remote : forall v w, P w -> P (set_remote v w).
Hypothesis P_updateCalls : forall v w, P w -> P (set_updateCalls v w).
Hypothesis P_output : forall v w, P w -> P (set_output v w).

Ltac preserves_step :=
  lazymatch goal with
  | |- preserves _ (match ?x with _ => _ end) => destruct x
  | |- preserves _ (ret _) => apply preserves_ret
  | |- preserves _ (throw _) => apply preserves_throw
  | |- preserves _ (read _) => apply preserves_read
  | |- preserves _ (modify _) =>
      apply preserves_modify; intros ? ?; cbn beta; auto
  | |- preserves _ (try_finally _ _) =>
      apply preserves_finally; [|intros ? ?; cbn beta; auto]
  | |- preserves _ (mbind _ _) => apply preserves_bind; [|intros ?]
  | |- preserves _ _ => solve [auto]
  end.

Ltac preserving := repeat preserves_step.

Lemma preserves_writeToEditor host textEditor data :
  preserves P (writeToEditor host textEditor data).
Proof. unfold writeToEditor. preserving. Qed.

Lemma preserves_save host textEditor : preserves P (save host textEditor).
Proof.
  unfold save. destruct textEditor as [path|]; preserving.
  intros w Hw. cbn. destruct (obj_get path (documents w)); auto.
Qed.

Lemma preserves_updateEditor host data textEditor :
  preserves P (updateEditor host data textEditor).
Proof.
  pose proof preserves_writeToEditor. pose proof preserves_save.
  unfold updateEditor. preserving.
Qed.

Lemma preserves_call_update editor data :
  preserves P (call_update editor data).
Proof.
  intros w Hw. unfold call_update.
  destruct (update editor data (remote w)). cbn. auto.
Qed.

Lemma preserves_updateToCloud host editor doc :
  preserves P (updateToCloud host editor doc).
Proof.
  pose proof preserves_updateEditor. pose proof preserves_call_update.
  unfold updateToCloud. preserving.
Qed.

(** It does not depend on the active editor, on the setting, or on the
    telemetry mark either, and binding a path keeps it. *)
Hypothesis P_activeTextEditor :
  forall v w, P w -> P (set_activeTextEditor v w).
Hypothesis P_showSavePrompt : forall v w, P w -> P (set_showSavePrompt v w).
Hypothesis P_suppressTelemetry :
  forall v w, P w -> P (set_suppressTelemetry v w).
Hypothesis P_bind :
  forall key editor w,
    P w -> P (set_fileMap (obj_set key editor (fileMap w)) w).
Hypothesis P_persist : forall w, P w -> P (snd (persistLabels w)).

Lemma preserves_loadPersistedEditor documentUri tree :
  preserves P (loadPersistedEditor documentUri tree).
Proof. unfold loadPersistedEditor. preserving. Qed.

Lemma preserves_resolveFilePath fsPath tree :
  preserves P (resolveFilePath fsPath tree).
Proof.
  pose proof preserves_loadPersistedEditor.
  unfold resolveFilePath. preserving.
Qed.

Lemma preserves_openTextDocument path : preserves P (openTextDocument path).
Proof.
  intros w Hw. unfold openTextDocument.
  now destruct (obj_get path (documents w)).
Qed.

Lemma preserves_showDocument host editor fileName :
  preserves P (showDocument host editor fileName).
Proof.
  pose proof preserves_updateEditor. pose proof preserves_openTextDocument.
  unfold showDocument. preserving.
  - intros w Hw. cbn. destruct (obj_get _ (documents w)); auto.
  - intros w Hw. cbn. auto.
  - intros w Hw. exact Hw.
Qed.

Lemma preserves_updateMatchingNode host documentUri tree :
  preserves P (updateMatchingNode host documentUri tree).
Proof.
  pose proof preserves_resolveFilePath. pose proof preserves_updateToCloud.
  pose proof preserves_openTextDocument.
  unfold updateMatchingNode. preserving.
Qed.

Lemma preserves_onDidSaveTextDocument host doc tree :
  preserves P (onDidSaveTextDocument host doc tree).
Proof.
  pose proof preserves_resolveFilePath. pose proof preserves_updateToCloud.
  unfold onDidSaveTextDocument. preserving.
Qed.

End Preservation.

(** *** Bindings are never duplicated and never removed *)

Lemma forEach_labels_keys entries :
  forall labels,
    incl (keys labels) (keys (fst (forEach_labels entries labels))).
Proof.
  induction entries as [|[key [editor|]] entries IH]; intros labels;
    cbn [forEach_labels fst]; try apply incl_refl.
  eapply incl_tran; [apply keys_set_incl|apply IH].
Qed.

Lemma persistLabels_fileMap w : fileMap (snd (persistLabels w)) = fileMap w.
Proof.
  unfold persistLabels.
  destruct (forEach_labels _ _) as [labels [e|]];
    destruct (globalState w); reflexivity.
Qed.

Lemma persistLabels_keys w :
  incl (persistedKeys w) (persistedKeys (snd (persistLabels w))).
Proof.
  unfold persistLabels, persistedKeys.
  pose proof (forEach_labels_keys (fileMap w)
                (match globalState w with Some t => t | None => [] end))
    as Hincl.
  destruct (forEach_labels _ _) as [labels [e|]]; cbn [fst] in Hincl;
    destruct (globalState w); cbn; try exact Hincl; apply incl_refl
    || (intros k []).
Qed.

Lemma reachable_NoDup w : reachable w -> NoDup (keys (fileMap w)).
Proof.
  set (P := fun w => NoDup (keys (fileMap w))).
  assert (Hbind : forall key editor w,
            P w -> P (set_fileMap (obj_set key editor (fileMap w)) w))
    by (intros key editor w0 Hw; now apply keys_set_NoDup).
  assert (Hpersist : forall w, P w -> P (snd (persistLabels w)))
    by (intros w0 Hw; unfold P; now rewrite persistLabels_fileMap).
  induction 1 as [w|host editor fileName w _ IH|host uri tree w _ IH
                  |host doc tree w _ IH|host data ed w _ IH
                  |w w' _ IH Hmap _].
  - constructor.
  - apply (preserves_showDocument P); auto; intros; assumption.
  - apply (preserves_updateMatchingNode P); auto; intros; assumption.
  - apply (preserves_onDidSaveTextDocument P); auto; intros; assumption.
  - apply (preserves_updateEditor P); auto; intros; assumption.
  - now rewrite Hmap.
Qed.


Lemma grows_from w0 :
  let P := grows w0 in
  (forall key editor w,
     P w -> P (set_fileMap (obj_set key editor (fileMap w)) w)) /\
  (forall w, P w -> P (snd (persistLabels w))).
Proof.
  cbv zeta. split.
  - intros key editor w [Hmem Hper]. split; [|exact Hper].
    eapply incl_tran; [exact Hmem|apply keys_set_incl].
  - intros w [Hmem Hper]. split.
    + now rewrite persistLabels_fileMap.
    + eapply incl_tran; [exact Hper|apply persistLabels_keys].
Qed.

(** X9.  No method of the manager removes a binding: every path that is a
    key of the in-memory table or of the persisted table before a call is
    still one after it, however the call ends. *)
Theorem bindings_never_removed host tree w :
  (forall editor fileName,
     grows w (snd (showDocument host editor fileName w))) /\
  (forall documentUri,
     grows w (snd (updateMatchingNode host documentUri tree w))) /\
  (forall doc, grows w (snd (onDidSaveTextDocument host doc tree w))).
Proof.
  destruct (grows_from w) as [Hbind Hpersist].
  assert (Hrefl : grows w w) by (split; apply incl_refl).
  split; [|split]; intros.
  - apply (preserves_showDocument (grows w)); auto; intros; assumption.
  - apply (preserves_updateMatchingNode (grows w)); auto;
      intros; assumption.
  - apply (preserves_onDidSaveTextDocument (grows w)); auto;
      intros; assumption.
Qed.

(** *** What [showDocument] records *)

Lemma updateEditor_frame host data textEditor w :
  let w' := snd (updateEditor host data textEditor w) in
  fileMap w' = fileMap w /\ globalState w' = globalState w /\
  activeTextEditor w' = activeTextEditor w /\ remote w' = remote w /\
  updateCalls w' = updateCalls w /\ output w' = output w /\
  showSavePrompt w' = showSavePrompt w /\
  suppressTelemetry w' = suppressTelemetry w.
Proof.
  cbv zeta.
  apply (preserves_updateEditor
           (fun w' =>
              fileMap w' = fileMap w /\ globalState w' = globalState w /\
              activeTextEditor w' = activeTextEditor w /\
              remote w' = remote w /\ updateCalls w' = updateCalls w /\
              output w' = output w /\ showSavePrompt w' = showSavePrompt w /\
              suppressTelemetry w' = suppressTelemetry w));
    try (intros; assumption).
  repeat split.
Qed.

Lemma showDocument_fulfilled host editor fileName w w' :
  showDocument host editor fileName w = (Fulfilled tt, w') ->
  let entries :=
    obj_set (localDocPathOf fileName) (Some editor) (fileMap w) in
  fileMap w' = entries /\
  activeTextEditor w' = Some (localDocPathOf fileName) /\
  globalState w' = Some (fst (forEach_labels entries (storedLabels w))) /\
  snd (forEach_labels entries (storedLabels w)) = None.
Proof.
  unfold showDocument. intros Hshow.
  apply mbind_fulfilled in Hshow as (u1 & w1 & Hensure & Hshow).
  apply mbind_fulfilled in Hshow as (document & w2 & Hopen & Hshow).
  apply mbind_fulfilled in Hshow as (u3 & w3 & Hdirty & Hshow).
  apply mbind_fulfilled in Hshow as (u4 & w4 & Hbind & Hshow).
  apply mbind_fulfilled in Hshow as (u5 & w5 & Hpersist & Hshow).
  apply mbind_fulfilled in Hshow as (textEditor & w6 & Htext & Hshow).
  apply mbind_fulfilled in Hshow as (data & w7 & Hdata & Hshow).
  repeat match goal with u : unit |- _ => destruct u end.
  assert (H1 : fileMap w1 = fileMap w /\ globalState w1 = globalState w).
  { unfold ensureFile, modify in Hensure.
    injection Hensure as Hw1. rewrite <- Hw1.
    now destruct (obj_get _ (documents w)). }
  destruct H1 as [Hmap1 Hstate1].
  assert (Hdoc : fsPath document = localDocPathOf fileName /\ w2 = w1).
  { unfold openTextDocument in Hopen.
    destruct (obj_get _ (documents w1)); [|discriminate].
    injection Hopen as Hd Hw2. rewrite <- Hd. now split. }
  destruct Hdoc as [Hpath ->].
  assert (w3 = w1) as ->.
  { destruct (isDirty document); [|now injection Hdirty].
    destruct (overwriteAnswer host) as [[| | |]|];
      try discriminate. now injection Hdirty. }
  unfold modify in Hbind. injection Hbind as Hw4.
  unfold persistLabels in Hpersist.
  rewrite <- Hw4 in Hpersist. cbn [fileMap globalState set_fileMap] in Hpersist.
  rewrite Hmap1, Hstate1 in Hpersist. fold (storedLabels w) in Hpersist.
  cbv zeta.
  destruct (forEach_labels _ (storedLabels w)) as [labels [e|]];
    [destruct (globalState w); discriminate|].
  injection Hpersist as Hw5.
  unfold showTextDocument in Htext. injection Htext as Hed Hw6.
  unfold call_getData in Hdata. injection Hdata as Hdata Hw7.
  pose proof (updateEditor_frame host data (Some textEditor) w7)
    as (Hmap & Hstate & Hactive & _).
  rewrite Hshow in Hmap, Hstate, Hactive. cbn [snd] in *.
  subst w7 w6 w5. cbn in Hmap, Hstate, Hactive.
  rewrite Hpath in Hactive.
  repeat split; assumption.
Qed.

Lemma forEach_labels_other entries key :
  forall labels,
    ~ In key (keys entries) ->
    obj_get key (fst (forEach_labels entries labels)) = obj_get key labels.
Proof.
  unfold keys.
  induction entries as [|[k [editor|]] entries IH]; intros labels Hnot;
    cbn [forEach_labels fst]; try reflexivity.
  cbn in Hnot. rewrite IH by tauto.
  apply obj_get_set_other. tauto.
Qed.

Lemma forEach_labels_ids entries :
  forall labels key editor,
    NoDup (keys entries) ->
    snd (forEach_labels entries labels) = None ->
    obj_get key entries = Some (Some editor) ->
    obj_get key (fst (forEach_labels entries labels)) = Some (id editor).
Proof.
  induction entries as [|[k [e|]] entries IH];
    intros labels key editor Hnd Hok Hget;
    cbn [forEach_labels fst snd obj_get] in *; try discriminate.
  unfold keys in Hnd. cbn in Hnd. apply NoDup_cons_iff in Hnd as [Hk Hnd].
  destruct (String.eqb k key) eqn:E.
  - apply String.eqb_eq in E. subst k. injection Hget as ->.
    rewrite forEach_labels_other by exact Hk.
    apply obj_get_set_same.
  - now apply IH.
Qed.

Lemma forEach_labels_undefined entries key :
  forall labels,
    In (key, None) entries ->
    snd (forEach_labels entries labels) = Some (TypeError "id").
Proof.
  induction entries as [|[k [e|]] entries IH]; intros labels Hin;
    cbn [forEach_labels snd]; [contradiction| |reflexivity].
  destruct Hin as [[=]|Hin]. now apply IH.
Qed.

(** X10.  Binding a path again overwrites.  After a [showDocument] that is
    fulfilled the path is bound to the editor given; a path that was
    bound keeps its place in the table, which gets no new key; a new path
    comes last; the other bindings are as before, and the document is
    the one the active editor shows. *)
Theorem showDocument_binds host editor fileName w w' :
  showDocument host editor fileName w = (Fulfilled tt, w') ->
  let path := localDocPathOf fileName in
  fileMap_at w' (Some path) = Some editor /\
  (In path (keys (fileMap w)) -> keys (fileMap w') = keys (fileMap w)) /\
  (~ In path (keys (fileMap w)) ->
   keys (fileMap w') = keys (fileMap w) ++ [path]) /\
  (forall key, key <> path ->
     obj_get key (fileMap w') = obj_get key (fileMap w)) /\
  activeTextEditor w' = Some path.
Proof.
  intros Hshow path.
  destruct (showDocument_fulfilled _ _ _ _ Hshow) as (Hmap & Hactive & _).
  unfold fileMap_at. cbn [propertyName]. rewrite Hmap.
  fold path. rewrite obj_get_set_same.
  repeat split.
  - apply keys_set_present.
  - apply keys_set_absent.
  - intros key Hne. apply obj_get_set_other. congruence.
  - exact Hactive.
Qed.

(** X11.  [showDocument] persists the whole table.  After a call that is
    fulfilled, the persisted table holds the [id] of its editor for every
    path bound in memory, and still holds what it held for the paths
    that are not bound in memory. *)
Theorem showDocument_persists host editor fileName w w' :
  reachable w ->
  showDocument host editor fileName w = (Fulfilled tt, w') ->
  exists labels,
    globalState w' = Some labels /\
    (forall key e,
       obj_get key (fileMap w') = Some (Some e) ->
       obj_get key labels = Some (id e)) /\
    (forall key,
       ~ In key (keys (fileMap w')) ->
       obj_get key labels = obj_get key (storedLabels w)).
Proof.
  intros Hreach Hshow.
  destruct (showDocument_fulfilled _ _ _ _ Hshow)
    as (Hmap & _ & Hstate & Hok).
  cbv zeta in *. eexists. split; [exact Hstate|].
  rewrite Hmap. split.
  - intros key e Hget. apply forEach_labels_ids; try assumption.
    apply keys_set_NoDup. now apply reachable_NoDup.
  - intros key Hnot. now apply forEach_labels_other.
Qed.

(** X12.  A buffer with unsaved changes is not overwritten unless the user
    answers Yes: the call is rejected as cancelled and nothing has
    changed, no binding is recorded. *)
Theorem showDocument_cancelled host editor fileName w b :
  obj_get (localDocPathOf fileName) (documents w) = Some b ->
  dirty b = true ->
  overwriteAnswer host <> Some Yes ->
  showDocument host editor fileName w = (Rejected UserCancelledError, w).
Proof.
  intros Hdoc Hdirty Hanswer.
  unfold showDocument, ensureFile, openTextDocument.
  unfold mbind at 1. cbn [modify]. rewrite Hdoc.
  unfold mbind at 1. rewrite Hdoc. cbn [isDirty]. rewrite Hdirty.
  unfold mbind at 1.
  destruct (overwriteAnswer host) as [[| | |]|]; try reflexivity.
  congruence.
Qed.

Lemma showDocument_undefined host editor fileName w key :
  In (key, None) (fileMap w) ->
  key <> localDocPathOf fileName ->
  overwriteAnswer host = Some Yes ->
  exists w',
    showDocument host editor fileName w = (Rejected (TypeError "id"), w') /\
    fileMap w' =
      obj_set (localDocPathOf fileName) (Some editor) (fileMap w) /\
    activeTextEditor w' = activeTextEditor w /\
    remote w' = remote w.
Proof.
  intros Hin Hne Hyes.
  unfold showDocument, ensureFile, openTextDocument.
  unfold mbind at 1. cbn [modify].
  set (w1 := match obj_get (localDocPathOf fileName) (documents w) with
             | Some _ => w
             | None => _
             end).
  assert (Hw1 : fileMap w1 = fileMap w /\ globalState w1 = globalState w /\
                activeTextEditor w1 = activeTextEditor w /\
                remote w1 = remote w /\
                obj_get (localDocPathOf fileName) (documents w1) <> None).
  { subst w1.
    destruct (obj_get (localDocPathOf fileName) (documents w)) eqn:Hdoc;
      cbn -[obj_get obj_set]; repeat split; try congruence.
    rewrite obj_get_set_same. discriminate. }
  destruct Hw1 as (Hmap & Hstate & Hactive & Hremote & Hdoc).
  clearbody w1. unfold mbind at 1.
  destruct (obj_get (localDocPathOf fileName) (documents w1)) as [b|];
    [|congruence].
  assert (Hprompt :
            (if isDirty {| fsPath := localDocPathOf fileName;
                           getText := text b; isDirty := dirty b |}
             then match overwriteAnswer host with
                  | Some Yes => ret tt
                  | _ => throw UserCancelledError
                  end
             else ret tt) w1 = (Fulfilled tt, w1)).
  { rewrite Hyes. now destruct (isDirty _). }
  unfold mbind at 1. rewrite Hprompt.
  unfold mbind at 1. cbn [modify].
  unfold mbind at 1. unfold persistLabels.
  cbn [fileMap globalState set_fileMap]. rewrite Hmap.
  assert (Hfail :
            snd (forEach_labels
                   (obj_set (localDocPathOf fileName) (Some editor)
                            (fileMap w))
                   (match globalState w1 with Some t => t | None => [] end))
            = Some (TypeError "id")).
  { apply forEach_labels_undefined with (key := key).
    apply in_obj_set_other; [congruence|exact Hin]. }
  destruct (forEach_labels _ _) as [labels failure]. cbn [snd] in Hfail.
  subst failure.
  destruct (globalState w1); eexists; (split; [reflexivity|]);
    cbn; rewrite ?Hmap; repeat split; assumption.
Qed.

(** X13.  A binding without an editor, which binding recovery leaves for a
    node of a class it does not know, blocks [showDocument] for every
    other path: the call is rejected with the [TypeError] of reading [id]
    of [undefined], after the new binding was put in the table and before
    the document is shown. *)
Theorem undefined_binding_blocks_showDocument host editor fileName w key :
  In (key, None) (fileMap w) ->
  key <> localDocPathOf fileName ->
  overwriteAnswer host = Some Yes ->
  let r := showDocument host editor fileName w in
  fst r = Rejected (TypeError "id") /\
  fileMap_at (snd r) (Some (localDocPathOf fileName)) = Some editor /\
  activeTextEditor (snd r) = activeTextEditor w /\
  remote (snd r) = remote w.
Proof.
  intros Hin Hne Hyes r. subst r.
  destruct (showDocument_undefined host editor fileName w Hin Hne Hyes)
    as (w' & -> & Hmap & Hactive & Hremote).
  cbn [fst snd]. unfold fileMap_at. cbn [propertyName].
  rewrite Hmap, obj_get_set_same. repeat split; assumption.
Qed.

(** *** Uploads *)

Lemma mbind_establishes (P : World -> Prop) A B (m : M A) (k : A -> M B) w :
  P (snd (m w)) -> (forall a, preserves P (k a)) -> P (snd (mbind m k w)).
Proof.
  intros Hm Hk. unfold mbind.
  destruct (m w) as [[a|e] w']; cbn in *; [now apply Hk|exact Hm].
Qed.

Lemma updateToCloud_calls host editor doc data w :
  JSON_parse (getText doc) = Some data ->
  let r := updateToCloud host (Some editor) doc w in
  updateCalls (snd r) = (updateCalls w ++ [(id editor, data)])%list /\
  remote (snd r) = snd (update editor data (remote w)) /\
  fileMap (snd r) = fileMap w /\
  globalState (snd r) = globalState w /\
  showSavePrompt (snd r) = showSavePrompt w /\
  suppressTelemetry (snd r) = suppressTelemetry w.
Proof.
  intros Hparse. cbv zeta. unfold updateToCloud. rewrite Hparse.
  apply mbind_establishes with
    (P := fun w' =>
            updateCalls w' = (updateCalls w ++ [(id editor, data)])%list /\
            remote w' = snd (update editor data (remote w)) /\
            fileMap w' = fileMap w /\
            globalState w' = globalState w /\
            showSavePrompt w' = showSavePrompt w /\
            suppressTelemetry w' = suppressTelemetry w).
  - unfold call_update.
    destruct (update editor data (remote w)). cbn. repeat split.
  - intros updatedDoc.
    apply preserves_bind;
      [apply preserves_modify; intros; assumption|intros _].
    apply preserves_bind; [apply preserves_read|intros activeEditor].
    apply preserves_updateEditor; intros; assumption.
Qed.

(** X14.  An upload calls [update] exactly once, with the parsed text of the
    document that was saved, and the remote store is what that call made
    of it, whether or not the editor can be rewritten afterwards. *)
Theorem upload_calls_update_once host editor doc data w :
  JSON_parse (getText doc) = Some data ->
  let r := updateToCloud host (Some editor) doc w in
  updateCalls (snd r) = (updateCalls w ++ [(id editor, data)])%list /\
  remote (snd r) = snd (update editor data (remote w)).
Proof.
  intros Hparse.
  destruct (updateToCloud_calls host editor doc w Hparse)
    as (Hcalls & Hremote & _).
  split; assumption.
Qed.

(** X15.  When the entity rejects the update, the upload is rejected with the
    same error, no buffer is touched and nothing is logged. *)
Theorem rejected_update_leaves_buffers host editor doc data e w :
  JSON_parse (getText doc) = Some data ->
  fst (update editor data (remote w)) = Rejected e ->
  let r := updateToCloud host (Some editor) doc w in
  fst r = Rejected e /\
  documents (snd r) = documents w /\
  output (snd r) = output w /\
  ignoreSave (snd r) = ignoreSave w.
Proof.
  intros Hparse Hupdate.
  assert (Heq : exists w',
            updateToCloud host (Some editor) doc w = (Rejected e, w') /\
            documents w' = documents w /\ output w' = output w /\
            ignoreSave w' = ignoreSave w).
  { unfold updateToCloud. rewrite Hparse.
    unfold mbind at 1. unfold call_update.
    destruct (update editor data (remote w)) as [answer remote'].
    cbn [fst] in Hupdate. subst answer.
    eexists. split; [reflexivity|]. repeat split. }
  destruct Heq as (w' & Heq & Hd & Ho & Hi). cbv zeta. rewrite Heq.
  repeat split; assumption.
Qed.

(** X16.  Binding recovery followed by the upload.  On a path that is not
    bound in memory but has a persisted entry whose entity the tree
    finds, of a class the manager knows, [updateMatchingNode] binds the
    path to the editor of that class and calls its [update] once with
    the parsed text of the file. *)
Theorem recovered_upload
        host documentUri tree w persistedEditors editorFilePath entityId
        editorNode editor b data :
  truthy (findPath documentUri (fileMap w)) = false ->
  globalState w = Some persistedEditors ->
  findPath documentUri persistedEditors = Some editorFilePath ->
  editorFilePath <> EmptyString ->
  obj_get editorFilePath persistedEditors = Some entityId ->
  findNode tree entityId = Some editorNode ->
  editorOfNode editorNode = Some editor ->
  obj_get documentUri (documents w) = Some b ->
  JSON_parse (text b) = Some data ->
  let r := updateMatchingNode host documentUri (Some tree) w in
  fileMap_at (snd r) (Some editorFilePath) = Some editor /\
  updateCalls (snd r) = (updateCalls w ++ [(id editor, data)])%list /\
  remote (snd r) = snd (update editor data (remote w)) /\
  globalState (snd r) = globalState w.
Proof.
  intros Hunbound Hstate Hfind Hne Hid Hnode Hclass Hdoc Hparse.
  set (w1 := set_fileMap (obj_set editorFilePath (Some editor) (fileMap w)) w).
  set (document := {| fsPath := documentUri; getText := text b;
                      isDirty := dirty b |}).
  assert (Heq : updateMatchingNode host documentUri (Some tree) w =
                updateToCloud host (Some editor) document w1).
  { unfold updateMatchingNode, resolveFilePath.
    unfold mbind at 1. unfold mbind at 1. cbn [read]. rewrite Hunbound.
    unfold loadPersistedEditor. unfold mbind at 1. cbn [read].
    rewrite Hstate, Hfind.
    assert (Ht : truthy (Some editorFilePath) = true).
    { unfold truthy. apply negb_true_iff.
      destruct (String.eqb editorFilePath EmptyString) eqn:E;
        [|reflexivity].
      apply String.eqb_eq in E. contradiction. }
    rewrite Ht. cbn [propertyName]. rewrite Hid. cbn [propertyName].
    rewrite Hnode, Hclass.
    unfold mbind at 1. cbn [modify ret]. fold w1.
    unfold mbind at 1. unfold openTextDocument.
    change (documents w1) with (documents w). rewrite Hdoc. fold document.
    unfold mbind at 1. cbn [read]. unfold fileMap_at.
    cbn [propertyName]. unfold w1 at 1. cbn [fileMap set_fileMap].
    now rewrite obj_get_set_same. }
  cbv zeta. rewrite Heq.
  destruct (updateToCloud_calls host editor document w1 Hparse)
    as (Hcalls & Hremote & Hmap & Hglobal & _).
  unfold fileMap_at. cbn [propertyName].
  rewrite Hcalls, Hremote, Hmap, Hglobal. unfold w1.
  cbn [fileMap set_fileMap updateCalls remote globalState].
  rewrite obj_get_set_same. repeat split.
Qed.

(** *** The save warning *)

(** X17.  A save the user does not confirm uploads nothing: with the warning
    enabled and any answer but the two upload buttons, the call is
    rejected as cancelled, [update] is not called and no buffer is
    touched. *)
Theorem cancelled_save host doc tree editor w :
  ignoreSave w = false ->
  truthy (findPath (fsPath doc) (fileMap w)) = true ->
  fileMap_at w (findPath (fsPath doc) (fileMap w)) = Some editor ->
  showSavePrompt w <> Some false ->
  saveWarningAnswer host <> Some upload ->
  saveWarningAnswer host <> Some uploadDontWarn ->
  onDidSaveTextDocument host doc tree w =
    (Rejected UserCancelledError, set_suppressTelemetry false w).
Proof.
  intros Hflag Hbound Hed Hprompt Hup Hdont.
  unfold onDidSaveTextDocument, resolveFilePath.
  unfold mbind, read, ret, throw, modify;
    cbn -[findPath truthy fileMap_at updateToCloud].
  rewrite Hbound. cbn -[findPath truthy fileMap_at updateToCloud].
  rewrite Hflag, Hbound. cbn -[findPath truthy fileMap_at updateToCloud].
  change (fileMap_at (set_suppressTelemetry false
                        (set_suppressTelemetry true w)))
    with (fileMap_at w).
  rewrite Hed.
  destruct (showSavePrompt w) as [[|]|];
    destruct (saveWarningAnswer host) as [[| | |]|];
    try reflexivity; congruence.
Qed.

Lemma mbind_ext A B (m : M A) (k k' : A -> M B) w :
  (forall a w1, m w = (Fulfilled a, w1) -> k a w1 = k' a w1) ->
  mbind m k w = mbind m k' w.
Proof.
  intros Hk. unfold mbind.
  destruct (m w) as [[a|e] w1]; [now apply Hk|reflexivity].
Qed.

Lemma resolveFilePath_frame fsPath tree w :
  let w' := snd (resolveFilePath fsPath tree w) in
  ignoreSave w' = ignoreSave w /\
  showSavePrompt w' = showSavePrompt w /\
  suppressTelemetry w' = suppressTelemetry w.
Proof.
  cbv zeta.
  apply (preserves_resolveFilePath
           (fun w' =>
              ignoreSave w' = ignoreSave w /\
              showSavePrompt w' = showSavePrompt w /\
              suppressTelemetry w' = suppressTelemetry w));
    try (intros; assumption).
  repeat split.
Qed.

Lemma resolveFilePath_bound fsPath tree w :
  truthy (findPath fsPath (fileMap w)) = true ->
  resolveFilePath fsPath tree w = (Fulfilled (findPath fsPath (fileMap w)), w).
Proof.
  intros Hbound. unfold resolveFilePath, mbind, read. now rewrite Hbound.
Qed.


(** X18.  Uploading without being asked again.  When the user answers with
    the second upload button, the setting is switched off, whatever
    becomes of the upload; and once the setting is off the answer of the
    user plays no part in a save. *)
Theorem stop_asking host doc tree w :
  (forall editor,
     ignoreSave w = false ->
     truthy (findPath (fsPath doc) (fileMap w)) = true ->
     fileMap_at w (findPath (fsPath doc) (fileMap w)) = Some editor ->
     showSavePrompt w <> Some false ->
     saveWarningAnswer host = Some uploadDontWarn ->
     showSavePrompt (snd (onDidSaveTextDocument host doc tree w))
       = Some false) /\
  (showSavePrompt w = Some false ->
   forall answer,
     onDidSaveTextDocument (answering answer host) doc tree w =
     onDidSaveTextDocument host doc tree w).
Proof.
  split.
  - intros editor Hflag Hbound Hed Hprompt Hanswer.
    unfold onDidSaveTextDocument.
    unfold mbind at 1. cbn [modify].
    unfold mbind at 1.
    rewrite resolveFilePath_bound by exact Hbound.
    unfold mbind at 1. cbn [read ignoreSave set_suppressTelemetry].
    change (fileMap (set_suppressTelemetry true w)) with (fileMap w).
    rewrite Hflag, Hbound. cbn [negb andb].
    unfold mbind at 1. cbn [modify].
    unfold mbind at 1. cbn [read].
    change (fileMap_at (set_suppressTelemetry false
                          (set_suppressTelemetry true w)))
      with (fileMap_at w).
    rewrite Hed.
    unfold mbind at 1. cbn [read showSavePrompt set_suppressTelemetry].
    rewrite Hanswer.
    assert (Hask : forall (A : Type) (x y : A),
              match showSavePrompt w with
              | Some false => x
              | _ => y
              end = y).
    { intros A x y. destruct (showSavePrompt w) as [[|]|];
        [reflexivity|congruence|reflexivity]. }
    rewrite Hask.
    unfold mbind at 1. cbn [modify].
    apply (preserves_updateToCloud (fun w' => showSavePrompt w' = Some false));
      try (intros; assumption).
    reflexivity.
  - intros Hoff answer. unfold onDidSaveTextDocument.
    apply mbind_ext. intros u1 w1 Hw1. injection Hw1 as _ <-.
    apply mbind_ext. intros filePath w2 Hres.
    pose proof (resolveFilePath_frame (fsPath doc) tree
                  (set_suppressTelemetry true w)) as (_ & Hp & _).
    cbv zeta in Hp. rewrite Hres in Hp.
    cbn [snd showSavePrompt set_suppressTelemetry] in Hp.
    apply mbind_ext. intros ignore w3 Hw3. injection Hw3 as _ <-.
    destruct (negb ignore && truthy filePath); [|reflexivity].
    apply mbind_ext. intros u4 w4 Hw4. injection Hw4 as _ <-.
    apply mbind_ext. intros editor w5 Hw5. injection Hw5 as _ <-.
    unfold mbind at 1 3. cbn [read showSavePrompt set_suppressTelemetry].
    rewrite Hp, Hoff. reflexivity.
Qed.


End WithPlatform.

End EditorMore.

(** ** Paging: further instances *)
Module PagingMoreExamples.
Import Paging PagingMore.

(** [exhausted_stays_exhausted] after two calls on three documents. *)
Lemma exhausted_stays_exhausted_witness :
  0 < 2 /\
  let coll := {| find := fun _ : option unit => [10; 20; 30] |} in
  let this := snd (loadMany 2 [false; false] (newTreeItem 2 coll None)) in
  hasMoreChildren this = false /\
  fst (loadMoreChildren 2 false this) = [] /\
  hasMoreChildren (snd (loadMoreChildren 2 false this)) = false.
Proof.
  split; [lia|]. cbv zeta. split; [reflexivity|].
  apply (@exhausted_stays_exhausted nat unit 2 [false; false]
           {| find := fun _ : option unit => [10; 20; 30] |} None);
    [lia|reflexivity].
Defined.

(** [batchSize_doubles] on four calls, the third of them a reset: two
    calls since the cursor was last opened. *)
Lemma batchSize_doubles_witness :
  isFinite 50 (sinceReset [false; false; true; false]) = true /\
  let coll := {| find := fun _ : option unit => [10; 20; 30] |} in
  _batchSize
    (snd (loadMany 50 [false; false; true; false] (newTreeItem 50 coll None)))
  = 200.
Proof.
  split; [vm_compute; reflexivity|]. cbv zeta.
  apply (@batchSize_doubles nat unit 50 [false; false; true; false]
           {| find := fun _ : option unit => [10; 20; 30] |} None).
  vm_compute; reflexivity.
Defined.

End PagingMoreExamples.

(** ** Commands of a collection: further instances *)
Module CommandsMoreExamples.
Import Js Commands CommandsScenario CommandsMore.

Local Open Scope string_scope.

#[local] Existing Instance textRuntime.

Lemma update_writes_each_document_witness :
  fst (update dropped [order] []) = Fulfilled [order] /\
  exists operations result,
    coll_bulkWrite dropped operations = Return (Fulfilled result) /\
    length operations = 1 /\
    map update_ operations = ["{ total: 12 }"] /\
    map (fun op => Return (filter_id op)) operations =
      map (fun d => ObjectID (_id d)) [order] /\
    Forall (fun op => upsert op = false) operations.
Proof.
  split; [reflexivity|].
  apply (@update_writes_each_document textRuntime dropped [order] []
           [order]).
  reflexivity.
Defined.

Lemma update_ill_formed_id_witness :
  ObjectID (_id ("42", "{}")) =
    Throw (ThrownMessage "Argument passed in must be 24 hex characters") /\
  update dropped [order; ("42", "{}"); order] [] =
    (Rejected (ThrownMessage "Argument passed in must be 24 hex characters"),
     []).
Proof.
  split; [reflexivity|].
  apply (@update_ill_formed_id textRuntime dropped [order] ("42", "{}")
           [order]).
  - repeat constructor. eexists. reflexivity.
  - reflexivity.
Defined.

Lemma unrecognized_command_witness :
  recognized "find" = false /\
  executeCommand dropped 42 "find" (Some "{ total: ") = Return None.
Proof.
  split; [reflexivity|].
  apply (@unrecognized_command textRuntime dropped 42 "find").
  reflexivity.
Defined.

Lemma caught_only_before_promise_witness :
  executeCommand dropped 42 "insertOne" (Some "{ total: ") =
    Return (Some (Fulfilled
                    (Caught (ThrownMessage "Unexpected end of input")))) /\
  recognized "insertOne" = true /\
  parsedArgs 42 (Some "{ total: ") =
    Throw (ThrownMessage "Unexpected end of input").
Proof.
  split; [reflexivity|].
  destruct (@caught_only_before_promise textRuntime dropped 42 "insertOne"
              (Some "{ total: ") (ThrownMessage "Unexpected end of input")
              eq_refl) as (Hname & _ & _).
  split; [exact Hname|reflexivity].
Defined.

End CommandsMoreExamples.

(** ** The editor manager: further instances *)
Module EditorMoreExamples.
Import Js Editor EditorScenario EditorFacts EditorMore.

Local Open Scope string_scope.

#[local] Existing Instance numbers.
#[local] Existing Instance itemEditors.



(** Binding the path of the item to another entity. *)
Lemma showDocument_binds_witness :
  fst (showDocument agreeing readOnly "item.json" shown) = Fulfilled tt /\
  let w' := snd (showDocument agreeing readOnly "item.json" shown) in
  fileMap_at w' (Some itemPath) = Some readOnly /\
  keys (fileMap w') = keys (fileMap shown).
Proof.
  split; [reflexivity|]. cbv zeta.
  assert (Hshow : showDocument agreeing readOnly "item.json" shown =
                  (Fulfilled tt,
                   snd (showDocument agreeing readOnly "item.json" shown)))
    by (vm_compute; reflexivity).
  destruct (showDocument_binds _ _ _ _ Hshow) as (Hbound & Hkeys & _).
  split; [exact Hbound|].
  apply Hkeys. left. reflexivity.
Defined.

Lemma showDocument_persists_witness :
  reachable start /\
  showDocument agreeing item "item.json" start = (Fulfilled tt, shown) /\
  exists labels,
    globalState shown = Some labels /\
    obj_get itemPath labels = Some "db/coll/item".
Proof.
  split; [exact (reach_new start)|]. split; [reflexivity|].
  assert (Hshow : showDocument agreeing item "item.json" start =
                  (Fulfilled tt, shown)) by (vm_compute; reflexivity).
  destruct (showDocument_persists _ _ _ (reach_new start) Hshow)
    as (labels & Hstate & Hids & _).
  exists labels. split; [exact Hstate|].
  apply (Hids itemPath item). reflexivity.
Defined.

Lemma showDocument_cancelled_witness :
  obj_get itemPath (documents typing) = Some {| text := "8"; dirty := true |} /\
  showDocument declining readOnly "item.json" typing =
    (Rejected UserCancelledError, typing).
Proof.
  split; [reflexivity|].
  apply showDocument_cancelled with (b := {| text := "8"; dirty := true |});
    [reflexivity|reflexivity|discriminate].
Defined.

Lemma undefined_binding_blocks_showDocument_witness :
  In (itemPath, None) (fileMap foreign) /\
  fst (showDocument agreeing item "other.json" foreign) =
    Rejected (TypeError "id").
Proof.
  split; [left; reflexivity|].
  apply undefined_binding_blocks_showDocument with (key := itemPath);
    [left; reflexivity|discriminate|reflexivity].
Defined.

Lemma upload_calls_update_once_witness :
  JSON_parse (getText savedItem) = Some 8 /\
  updateCalls (snd (updateToCloud agreeing (Some item) savedItem saved)) =
    [("db/coll/item", 8)] /\
  remote (snd (updateToCloud agreeing (Some item) savedItem saved)) = 80.
Proof.
  split; [reflexivity|].
  exact (upload_calls_update_once agreeing item savedItem (data := 8) saved
           eq_refl).
Defined.

Lemma rejected_update_leaves_buffers_witness :
  fst (update readOnly 8 (remote saved)) = Rejected (Error "forbidden") /\
  fst (updateToCloud agreeing (Some readOnly) savedItem saved) =
    Rejected (Error "forbidden") /\
  documents (snd (updateToCloud agreeing (Some readOnly) savedItem saved)) =
    documents saved.
Proof.
  split; [reflexivity|].
  destruct (rejected_update_leaves_buffers agreeing readOnly savedItem
              (data := 8) (e := Error "forbidden") saved eq_refl eq_refl)
    as (Hr & Hd & _).
  split; assumption.
Defined.

Lemma recovered_upload_witness :
  findNode liveTree "db/coll/item" =
    Some {| nodeId := "db/coll/item"; treeItem := MongoDocumentTreeItem |} /\
  let r := updateMatchingNode agreeing itemPath (Some liveTree) restarted in
  fileMap_at (snd r) (Some itemPath) = Some item /\
  updateCalls (snd r) = [("db/coll/item", 8)].
Proof.
  split; [reflexivity|]. cbv zeta.
  assert (Hpath : itemPath <> EmptyString) by discriminate.
  pose proof (recovered_upload agreeing itemPath liveTree restarted
                (persistedEditors := [(itemPath, "db/coll/item")])
                (editorFilePath := itemPath) (entityId := "db/coll/item")
                (editorNode := {| nodeId := "db/coll/item";
                                  treeItem := MongoDocumentTreeItem |})
                (editor := item) (b := {| text := "8"; dirty := false |})
                (data := 8)
                eq_refl eq_refl eq_refl Hpath eq_refl eq_refl eq_refl
                eq_refl eq_refl) as Hrec.
  cbv zeta in Hrec.
  destruct Hrec as (Hbound & Hcalls & _).
  split; assumption.
Defined.

Lemma cancelled_save_witness :
  saveWarningAnswer declining = Some Cancel /\
  onDidSaveTextDocument declining savedItem None saved =
    (Rejected UserCancelledError, set_suppressTelemetry false saved).
Proof.
  split; [reflexivity|].
  apply cancelled_save with (editor := item);
    try reflexivity; discriminate.
Defined.

End EditorMoreExamples.
